(** * Location tracker: ingestion, fan-out, geofences and route analysis

    A shallow embedding of [server.js] (Express + sqlite3 + socket.io) and
    the properties of its ingestion-and-fan-out core.

    Modelling conventions.
    - JavaScript numbers are idealised as real numbers ([R]): rounding
      errors of IEEE doubles are outside the model.  [NaN] only arises here
      from [ToNumber(undefined)] and is modelled by [None].
    - A JSON body field is modelled at the type the transport interface
      gives it (a number for coordinates, a string for identifiers),
      extended with the two ways a field can be missing: absent
      ([undefined]) and [null].  A body that carries a value of another
      JSON type in such a field (a string where a number is expected) is
      outside the model.
    - The SQLite tables are lists (append-only tables) or finite maps keyed
      by the primary key.  Whether a statement fails is an input of the
      handler.
    - socket.io rooms are a finite map from room name to the set of socket
      ids in the room, with the semantics its documentation gives to
      connection (the socket enters the room named by its own id), [join],
      [leave], disconnection and [io.to(room).emit]. *)

From Stdlib Require Import Reals Lra ZArith String List Factorial.
From stdpp Require Import gmap strings list.
Import ListNotations.

Local Open Scope string_scope.

(** ** JavaScript values *)

(** A numeric field of a JSON body: absent, [null], or a number. *)
Inductive JsNum : Type :=
  | NumUndefined
  | NumNull
  | Num (x : R).

(** A string field of a JSON body: absent, [null], or a string. *)
Inductive JsStr : Type :=
  | StrUndefined
  | StrNull
  | Str (s : string).

#[global] Instance Rlt_decision : RelDecision Rlt := Rlt_dec.
#[global] Instance Rle_decision : RelDecision Rle := Rle_dec.
#[global] Instance Req_decision : RelDecision (@eq R) := Req_dec_T.

(** [ToBoolean]: [undefined], [null] and [0] are falsy. *)
Definition truthy (v : JsNum) : bool :=
  match v with
  | Num x => negb (bool_decide (x = 0%R))
  | NumUndefined | NumNull => false
  end.

(** [ToBoolean] on a string field: the empty string is falsy too. *)
Definition truthy_str (v : JsStr) : bool :=
  match v with
  | Str s => negb (bool_decide (s = ""))
  | StrUndefined | StrNull => false
  end.

(** [ToNumber]: [undefined] gives [NaN] ([None]), [null] gives [0]. *)
Definition ToNumber (v : JsNum) : option R :=
  match v with
  | Num x => Some x
  | NumNull => Some 0%R
  | NumUndefined => None
  end.

(** [v < c] and [v > c] for a numeric constant [c]; any comparison with
    [NaN] is false. *)
Definition js_lt (v : JsNum) (c : R) : bool :=
  match ToNumber v with
  | Some x => bool_decide (x < c)%R
  | None => false
  end.

Definition js_gt (v : JsNum) (c : R) : bool :=
  match ToNumber v with
  | Some x => bool_decide (c < x)%R
  | None => false
  end.

(** A destructuring default [{ f = d }] applies to an absent field only. *)
Definition with_default (v : JsNum) (d : R) : JsNum :=
  match v with
  | NumUndefined => Num d
  | _ => v
  end.

(** [Math.round]: the nearest integer, halves rounded up. *)
Definition Math_round (x : R) : R := IZR (Int_part (x + / 2)).

(** [Math.atan2 y x]. *)
Definition Math_atan2 (y x : R) : R :=
  if decide (0 < x)%R then atan (y / x)
  else if decide (x < 0)%R then
    (if decide (0 <= y)%R then atan (y / x) + PI else atan (y / x) - PI)%R
  else if decide (0 < y)%R then (PI / 2)%R
  else if decide (y < 0)%R then (- (PI / 2))%R
  else 0%R.

(** ** Geo math *)

(** [calculateDistance]: Haversine distance in kilometres. *)
Definition calculateDistance (lat1 lon1 lat2 lon2 : R) : R :=
  let R_earth := 6371%R in
  let dLat := ((lat2 - lat1) * PI / 180)%R in
  let dLon := ((lon2 - lon1) * PI / 180)%R in
  let a := (sin (dLat / 2) * sin (dLat / 2) +
            cos (lat1 * PI / 180) * cos (lat2 * PI / 180) *
            sin (dLon / 2) * sin (dLon / 2))%R in
  let c := (2 * Math_atan2 (sqrt a) (sqrt (1 - a)))%R in
  (R_earth * c)%R.

(** The quantity [a] of [calculateDistance], and the function in terms of
    it. *)
Definition haversine_a (lat1 lon1 lat2 lon2 : R) : R :=
  (sin ((lat2 - lat1) * PI / 180 / 2) * sin ((lat2 - lat1) * PI / 180 / 2) +
   cos (lat1 * PI / 180) * cos (lat2 * PI / 180) *
   sin ((lon2 - lon1) * PI / 180 / 2) * sin ((lon2 - lon1) * PI / 180 / 2))%R.

(** ** Tables *)

(** A value of a [REAL] column: [NULL] or a number.  sqlite3 binds both
    [undefined] and [null] as [NULL]. *)
Definition sql_real (v : JsNum) : option R :=
  match v with
  | Num x => Some x
  | NumUndefined | NumNull => None
  end.

Definition sql_text (v : JsStr) : option string :=
  match v with
  | Str s => Some s
  | StrUndefined | StrNull => None
  end.

(** Reading a [REAL] column back in arithmetic: [null] counts as [0]. *)
Definition num_of (v : option R) : R := default 0%R v.

Record TrackingLink : Type := {
  link_name : option string;
  link_active : bool;
  tracking_interval : Z;
  max_duration : Z
}.

(** A row of [location_data].  [row_timestamp] is the instant the stored
    [DATETIME] denotes, in milliseconds since the epoch, which is what
    [new Date(row.timestamp)] evaluates to in arithmetic. *)
Record LocationRow : Type := {
  row_tracking_id : string;
  row_latitude : option R;
  row_longitude : option R;
  row_accuracy : option R;
  row_speed : option R;
  row_heading : option R;
  row_altitude : option R;
  row_timestamp : Z;
  row_user_agent : option string;
  row_ip_address : option string;
  row_session_id : option string;
  row_battery_level : option R;
  row_network_type : option string
}.

Record TrackingSession : Type := {
  session_tracking_id : string;
  started_at : Z;
  last_update : Z;
  is_active : bool;
  total_locations : Z
}.

Record Geofence : Type := {
  gf_id : Z;
  gf_tracking_id : string;
  gf_latitude : option R;
  gf_longitude : option R;
  gf_radius : option R;
  gf_action : option string;
  gf_active : bool
}.

(** ** Real-time events *)

Record LocationUpdate : Type := {
  ev_latitude : JsNum;
  ev_longitude : JsNum;
  ev_accuracy : JsNum;
  ev_speed : JsNum;
  ev_heading : JsNum;
  ev_altitude : JsNum;
  ev_batteryLevel : JsNum;
  ev_networkType : JsStr;
  ev_timestamp : Z
}.

Inductive Event : Type :=
  | EvLocationUpdate (e : LocationUpdate)
  | EvTrackingJoined (trackingId : string)
  | EvTrackingLeft (trackingId : string).

(** ** Server state *)

(** The database, the socket.io adapter and the module-level
    [activeConnections] map.  [emitted] logs every [io.to(room).emit] call,
    [outbox] every event handed to a socket.  Among the rooms are the
    private ones: socket.io puts every socket in a room named by its own
    id.  socket.io draws a new id for every connection; [retired] holds the
    ids of the sockets that have disconnected, which are never given out
    again. *)
Record Server : Type := {
  tracking_links : gmap string TrackingLink;
  location_data : list LocationRow;
  tracking_sessions : gmap string TrackingSession;
  geofences : list Geofence;
  sockets : gset string;
  rooms : gmap string (gset string);
  activeConnections : gmap string string;
  emitted : list (string * Event);
  outbox : list (string * Event);
  retired : gset string
}.

Definition empty_server : Server :=
  {| tracking_links := ∅; location_data := []; tracking_sessions := ∅;
     geofences := []; sockets := ∅; rooms := ∅; activeConnections := ∅;
     emitted := []; outbox := []; retired := ∅ |}.

(** The sockets currently in a room. *)
Definition room_members (σ : Server) (room : string) : gset string :=
  default ∅ (rooms σ !! room).

Definition set_tracking_links (m : gmap string TrackingLink) (σ : Server)
  : Server :=
  {| tracking_links := m; location_data := location_data σ;
     tracking_sessions := tracking_sessions σ; geofences := geofences σ;
     sockets := sockets σ; rooms := rooms σ;
     activeConnections := activeConnections σ;
     emitted := emitted σ; outbox := outbox σ; retired := retired σ |}.

Definition set_location_data (l : list LocationRow) (σ : Server) : Server :=
  {| tracking_links := tracking_links σ; location_data := l;
     tracking_sessions := tracking_sessions σ; geofences := geofences σ;
     sockets := sockets σ; rooms := rooms σ;
     activeConnections := activeConnections σ;
     emitted := emitted σ; outbox := outbox σ; retired := retired σ |}.

Definition set_tracking_sessions (m : gmap string TrackingSession) (σ : Server)
  : Server :=
  {| tracking_links := tracking_links σ; location_data := location_data σ;
     tracking_sessions := m; geofences := geofences σ;
     sockets := sockets σ; rooms := rooms σ;
     activeConnections := activeConnections σ;
     emitted := emitted σ; outbox := outbox σ; retired := retired σ |}.

Definition set_io (sk : gset string) (rm : gmap string (gset string))
    (ac : gmap string string) (em ob : list (string * Event)) (σ : Server)
  : Server :=
  {| tracking_links := tracking_links σ; location_data := location_data σ;
     tracking_sessions := tracking_sessions σ; geofences := geofences σ;
     sockets := sk; rooms := rm; activeConnections := ac;
     emitted := em; outbox := ob; retired := retired σ |}.

Definition set_retired (rt : gset string) (σ : Server) : Server :=
  {| tracking_links := tracking_links σ; location_data := location_data σ;
     tracking_sessions := tracking_sessions σ; geofences := geofences σ;
     sockets := sockets σ; rooms := rooms σ;
     activeConnections := activeConnections σ;
     emitted := emitted σ; outbox := outbox σ; retired := rt |}.

(** ** HTTP responses *)

(** An entry of [triggeredGeofences]. *)
Record Triggered : Type := {
  tg_id : Z;
  tg_action : option string;
  tg_distance : R
}.

Inductive Body : Type :=
  | ErrorBody (error : string)
  | SuccessBody (message : string)
  | TriggeredBody (triggeredGeofences : list Triggered).

Record Response : Type := { status : Z; body : Body }.

Definition bad_request (msg : string) : Response :=
  {| status := 400; body := ErrorBody msg |}.
Definition server_error (msg : string) : Response :=
  {| status := 500; body := ErrorBody msg |}.
Definition ok (msg : string) : Response :=
  {| status := 200; body := SuccessBody msg |}.

(** The body of the three ingest endpoints, with numbers in its numeric
    fields and strings in the others, or nothing. *)
Record LocationBody : Type := {
  trackingId : string;
  latitude : JsNum;
  longitude : JsNum;
  accuracy : JsNum;
  speed : JsNum;
  heading : JsNum;
  altitude : JsNum;
  userAgent : JsStr;
  ipAddress : JsStr;
  sessionId : JsStr;
  batteryLevel : JsNum;
  networkType : JsStr
}.

(** What the environment decides for one request: the outcome of the
    [INSERT] (an error message when it fails) and the current time.  The
    schema declares [FOREIGN KEY (tracking_id)], but the connection never
    issues [PRAGMA foreign_keys = ON], so SQLite does not enforce it and the
    outcome of the [INSERT] does not depend on [tracking_links]. *)
Record Env : Type := {
  insert_error : option string;
  clock : Z
}.

(** ** Input validation middleware *)

(** [validateLocationData]: [Some r] when the middleware answers [r] itself,
    [None] when it calls [next()]. *)
Definition validateLocationData (b : LocationBody) : option Response :=
  if negb (truthy (latitude b)) || negb (truthy (longitude b))
     || negb (truthy (accuracy b))
  then Some (bad_request "Eksik konum verileri")
  else if js_lt (latitude b) (-90) || js_gt (latitude b) 90
          || js_lt (longitude b) (-180) || js_gt (longitude b) 180
  then Some (bad_request "Geçersiz koordinatlar")
  else if js_lt (accuracy b) 0 || js_gt (accuracy b) 10000
  then Some (bad_request "Geçersiz hassasiyet değeri")
  else None.

(** ** Fan-out primitives (socket.io) *)

(** [io.to(room).emit(ev)]: the call is logged and the event is handed to
    every socket that is in the room at the moment of the call. *)
Definition io_to_emit (room : string) (ev : Event) (σ : Server) : Server :=
  set_io (sockets σ) (rooms σ) (activeConnections σ)
    (emitted σ ++ [(room, ev)])
    (outbox σ ++ map (λ s, (s, ev)) (elements (room_members σ room)))
    σ.

(** [socket.emit(ev)]: an acknowledgement sent to one socket. *)
Definition socket_emit (s : string) (ev : Event) (σ : Server) : Server :=
  set_io (sockets σ) (rooms σ) (activeConnections σ) (emitted σ)
    (outbox σ ++ [(s, ev)]) σ.

(** ** Session bookkeeping *)

(** [UPDATE tracking_sessions SET last_update = CURRENT_TIMESTAMP,
    total_locations = total_locations + 1 WHERE id = ?]: no row matches an
    unknown or [NULL] id, and the result of the statement is not looked at. *)
Definition touch_session (now : Z) (s : TrackingSession) : TrackingSession :=
  {| session_tracking_id := session_tracking_id s;
     started_at := started_at s;
     last_update := now;
     is_active := is_active s;
     total_locations := (total_locations s + 1)%Z |}.

Definition update_session (now : Z) (sid : JsStr) (σ : Server) : Server :=
  match sql_text sid with
  | Some id => set_tracking_sessions (alter (touch_session now) id (tracking_sessions σ)) σ
  | None => σ
  end.

(** ** Ingest endpoints *)

(** The row that [/api/save-location] and [/api/background-location] bind. *)
Definition web_row (now : Z) (b : LocationBody) : LocationRow :=
  {| row_tracking_id := trackingId b;
     row_latitude := sql_real (latitude b);
     row_longitude := sql_real (longitude b);
     row_accuracy := sql_real (accuracy b);
     row_speed := sql_real (with_default (speed b) 0);
     row_heading := sql_real (with_default (heading b) 0);
     row_altitude := sql_real (with_default (altitude b) 0);
     row_timestamp := now;
     row_user_agent := sql_text (userAgent b);
     row_ip_address := sql_text (ipAddress b);
     row_session_id := sql_text (sessionId b);
     row_battery_level := None;
     row_network_type := None |}.

(** The row that [/api/mobile/location] binds. *)
Definition mobile_row (now : Z) (b : LocationBody) : LocationRow :=
  {| row_tracking_id := trackingId b;
     row_latitude := sql_real (latitude b);
     row_longitude := sql_real (longitude b);
     row_accuracy := sql_real (accuracy b);
     row_speed := sql_real (with_default (speed b) 0);
     row_heading := sql_real (with_default (heading b) 0);
     row_altitude := sql_real (with_default (altitude b) 0);
     row_timestamp := now;
     row_user_agent := None;
     row_ip_address := None;
     row_session_id := sql_text (sessionId b);
     row_battery_level := sql_real (batteryLevel b);
     row_network_type := sql_text (networkType b) |}.

(** The [location-update] payload of the web endpoints. *)
Definition web_event (now : Z) (b : LocationBody) : Event :=
  EvLocationUpdate
    {| ev_latitude := latitude b;
       ev_longitude := longitude b;
       ev_accuracy := accuracy b;
       ev_speed := with_default (speed b) 0;
       ev_heading := with_default (heading b) 0;
       ev_altitude := with_default (altitude b) 0;
       ev_batteryLevel := NumUndefined;
       ev_networkType := StrUndefined;
       ev_timestamp := now |}.

(** The [location-update] payload of the mobile endpoint. *)
Definition mobile_event (now : Z) (b : LocationBody) : Event :=
  EvLocationUpdate
    {| ev_latitude := latitude b;
       ev_longitude := longitude b;
       ev_accuracy := accuracy b;
       ev_speed := with_default (speed b) 0;
       ev_heading := with_default (heading b) 0;
       ev_altitude := with_default (altitude b) 0;
       ev_batteryLevel := batteryLevel b;
       ev_networkType := networkType b;
       ev_timestamp := now |}.

(** The callback of the [INSERT]: on error a 500, otherwise the row is in
    the table, the session is touched, the event is emitted to the room of
    the tracking id, and the request succeeds. *)
Definition persist_and_publish (env : Env) (row : LocationRow) (ev : Event)
    (b : LocationBody) (msg : string) (σ : Server) : Response * Server :=
  match insert_error env with
  | Some err => (server_error err, σ)
  | None =>
      let σ1 := set_location_data (location_data σ ++ [row]) σ in
      let σ2 := update_session (clock env) (sessionId b) σ1 in
      let σ3 := io_to_emit (trackingId b) ev σ2 in
      (ok msg, σ3)
  end.

(** [POST /api/save-location]. *)
Definition save_location (env : Env) (b : LocationBody) (σ : Server)
  : Response * Server :=
  match validateLocationData b with
  | Some r => (r, σ)
  | None =>
      if negb (truthy_str (sessionId b))
      then (bad_request "Session ID gerekli", σ)
      else persist_and_publish env (web_row (clock env) b)
             (web_event (clock env) b) b "Konum kaydedildi" σ
  end.

(** [POST /api/mobile/location]. *)
Definition mobile_location (env : Env) (b : LocationBody) (σ : Server)
  : Response * Server :=
  match validateLocationData b with
  | Some r => (r, σ)
  | None =>
      persist_and_publish env (mobile_row (clock env) b)
        (mobile_event (clock env) b) b "Konum kaydedildi" σ
  end.

(** [POST /api/background-location]. *)
Definition background_location (env : Env) (b : LocationBody) (σ : Server)
  : Response * Server :=
  match validateLocationData b with
  | Some r => (r, σ)
  | None =>
      if negb (truthy_str (sessionId b))
      then (bad_request "Session ID gerekli", σ)
      else persist_and_publish env (web_row (clock env) b)
             (web_event (clock env) b) b "Arka plan konumu kaydedildi" σ
  end.

(** The three endpoints that append to [location_data]. *)
Inductive Endpoint : Type :=
  | SaveLocation
  | MobileLocation
  | BackgroundLocation.

Definition ingest (ep : Endpoint) : Env → LocationBody → Server → Response * Server :=
  match ep with
  | SaveLocation => save_location
  | MobileLocation => mobile_location
  | BackgroundLocation => background_location
  end.

(** Whether the handler of an endpoint reaches its [INSERT]: the middleware
    called [next()] and, where the handler has one, the session check
    passed. *)
Definition attempts_insert (ep : Endpoint) (b : LocationBody) : bool :=
  match validateLocationData b with
  | Some _ => false
  | None =>
      match ep with
      | MobileLocation => true
      | SaveLocation | BackgroundLocation => truthy_str (sessionId b)
      end
  end.

(** The row and the event an endpoint builds from a body. *)
Definition ingest_row (ep : Endpoint) (now : Z) (b : LocationBody) : LocationRow :=
  match ep with
  | MobileLocation => mobile_row now b
  | SaveLocation | BackgroundLocation => web_row now b
  end.

Definition ingest_event (ep : Endpoint) (now : Z) (b : LocationBody) : Event :=
  match ep with
  | MobileLocation => mobile_event now b
  | SaveLocation | BackgroundLocation => web_event now b
  end.

(** ** Session stop *)

Definition deactivate (s : TrackingSession) : TrackingSession :=
  {| session_tracking_id := session_tracking_id s;
     started_at := started_at s;
     last_update := last_update s;
     is_active := false;
     total_locations := total_locations s |}.

(** [POST /api/stop-session]: [UPDATE tracking_sessions SET is_active = 0
    WHERE id = ?].  [update_error] is the error of the statement, if any; a
    statement that matches no row is not an error. *)
Definition stop_session (update_error : option string) (sid : JsStr)
    (σ : Server) : Response * Server :=
  match update_error with
  | Some err => (server_error err, σ)
  | None =>
      (ok "Session durduruldu",
       match sql_text sid with
       | Some id => set_tracking_sessions (alter deactivate id (tracking_sessions σ)) σ
       | None => σ
       end)
  end.

(** ** Geofence evaluation *)

Record GeofenceBody : Type := {
  gb_trackingId : string;
  gb_latitude : JsNum;
  gb_longitude : JsNum
}.

(** [SELECT * FROM geofences WHERE tracking_id = ? AND active = 1]. *)
Definition select_geofences (tid : string) (σ : Server) : list Geofence :=
  List.filter (λ g, bool_decide (gf_tracking_id g = tid) && gf_active g)
    (geofences σ).

(** The distance the loop body computes for one geofence, in kilometres. *)
Definition geofence_distance (la lo : R) (g : Geofence) : R :=
  calculateDistance la lo (num_of (gf_latitude g)) (num_of (gf_longitude g)).

(** One iteration of the [forEach]: the entry pushed, if any. *)
Definition check_one (la lo : R) (g : Geofence) : option Triggered :=
  let distance := geofence_distance la lo g in
  if bool_decide (distance <= num_of (gf_radius g))%R
  then Some {| tg_id := gf_id g;
               tg_action := gf_action g;
               tg_distance := Math_round (distance * 1000) |}
  else None.

(** The [forEach] over the selected rows.  With an absent coordinate the
    distance is [NaN] and no comparison succeeds. *)
Definition triggeredGeofences (lat lon : JsNum) (gs : list Geofence)
  : list Triggered :=
  match ToNumber lat, ToNumber lon with
  | Some la, Some lo => omap (check_one la lo) gs
  | _, _ => []
  end.

(** The test and the entry of one geofence, named for the statements
    below: the distance in kilometres is at most the stored radius. *)
Definition within_radius (la lo : R) (g : Geofence) : bool :=
  bool_decide (geofence_distance la lo g <= num_of (gf_radius g))%R.

Definition triggered_entry (la lo : R) (g : Geofence) : Triggered :=
  {| tg_id := gf_id g;
     tg_action := gf_action g;
     tg_distance := Math_round (geofence_distance la lo g * 1000) |}.

(** [POST /api/mobile/check-geofence]. *)
Definition check_geofence (select_error : option string) (b : GeofenceBody)
    (σ : Server) : Response :=
  match select_error with
  | Some err => server_error err
  | None =>
      {| status := 200;
         body := TriggeredBody
                   (triggeredGeofences (gb_latitude b) (gb_longitude b)
                      (select_geofences (gb_trackingId b) σ)) |}
  end.

(** ** Route analysis *)

Record Stop : Type := {
  stop_latitude : option R;
  stop_longitude : option R;
  stop_duration : R;
  stop_timestamp : Z
}.

(** The object [analyzeRoute] returns; the early return leaves
    [totalLocations] and [duration] out. *)
Record RouteSummary : Type := {
  totalDistance : R;
  avgSpeed : R;
  stops : list Stop;
  totalLocations : option nat;
  duration : option R
}.

(** The variables of the loop. *)
Record RouteAcc : Type := {
  acc_totalDistance : R;
  acc_totalSpeed : R;
  acc_speedCount : nat;
  acc_stops : list Stop
}.

(** [if (curr.speed)]: a [NULL] or zero speed is skipped. *)
Definition speed_present (v : option R) : bool :=
  match v with
  | Some x => negb (bool_decide (x = 0%R))
  | None => false
  end.

(** [new Date(curr.timestamp) - new Date(prev.timestamp)], milliseconds. *)
Definition timeDiff (prev curr : LocationRow) : Z :=
  (row_timestamp curr - row_timestamp prev)%Z.

(** One iteration of the loop, for [prev = locations[i-1]] and
    [curr = locations[i]]. *)
Definition route_step (prev curr : LocationRow) (acc : RouteAcc) : RouteAcc :=
  let distance :=
    calculateDistance (num_of (row_latitude prev)) (num_of (row_longitude prev))
      (num_of (row_latitude curr)) (num_of (row_longitude curr)) in
  {| acc_totalDistance := (acc_totalDistance acc + distance)%R;
     acc_totalSpeed :=
       if speed_present (row_speed curr)
       then (acc_totalSpeed acc + num_of (row_speed curr))%R
       else acc_totalSpeed acc;
     acc_speedCount :=
       if speed_present (row_speed curr)
       then S (acc_speedCount acc) else acc_speedCount acc;
     acc_stops :=
       if (5 * 60 * 1000 <? timeDiff prev curr)%Z
       then acc_stops acc ++
            [{| stop_latitude := row_latitude curr;
                stop_longitude := row_longitude curr;
                stop_duration := (IZR (timeDiff prev curr) / (1000 * 60))%R;
                stop_timestamp := row_timestamp curr |}]
       else acc_stops acc |}.

(** The loop [for (i = 1; i < locations.length; i++)], entered with
    [prev = locations[0]]. *)
Fixpoint route_loop (prev : LocationRow) (rest : list LocationRow)
    (acc : RouteAcc) : RouteAcc :=
  match rest with
  | [] => acc
  | curr :: rest' => route_loop curr rest' (route_step prev curr acc)
  end.

(** [analyzeRoute]. *)
Definition analyzeRoute (locations : list LocationRow) : RouteSummary :=
  match locations with
  | first :: (_ :: _) as rest =>
      let acc := route_loop first rest
                   {| acc_totalDistance := 0; acc_totalSpeed := 0;
                      acc_speedCount := 0; acc_stops := [] |} in
      {| totalDistance := (Math_round (acc_totalDistance acc * 100) / 100)%R;
         avgSpeed :=
           if (0 <? acc_speedCount acc)%nat
           then Math_round (acc_totalSpeed acc / INR (acc_speedCount acc) * (36 / 10))
           else 0%R;
         stops := acc_stops acc;
         totalLocations := Some (length locations);
         duration :=
           Some (IZR (row_timestamp (List.last locations first) - row_timestamp first)
                 / (1000 * 60 * 60))%R |}
  | _ =>
      {| totalDistance := 0; avgSpeed := 0; stops := [];
         totalLocations := None; duration := None |}
  end.

(** *** Stop detection, in the words of the specification *)

(** The consecutive pairs [(locations[i-1], locations[i])] of a history. *)
Fixpoint consecutive_pairs (l : list LocationRow)
  : list (LocationRow * LocationRow) :=
  match l with
  | prev :: (curr :: _) as rest => (prev, curr) :: consecutive_pairs rest
  | _ => []
  end.

(** The elapsed time of a pair exceeds five minutes. *)
Definition long_gap (p : LocationRow * LocationRow) : bool :=
  (300000 <? row_timestamp p.2 - row_timestamp p.1)%Z.

(** The stop recorded for a pair: at the later sample's coordinates, with
    the gap in minutes and the later sample's timestamp. *)
Definition stop_after (p : LocationRow * LocationRow) : Stop :=
  {| stop_latitude := row_latitude p.2;
     stop_longitude := row_longitude p.2;
     stop_duration := (IZR (row_timestamp p.2 - row_timestamp p.1) / 60000)%R;
     stop_timestamp := row_timestamp p.2 |}.

(** One stop for each consecutive pair more than five minutes apart, in the
    order of the history. *)
Definition spec_stops (locations : list LocationRow) : list Stop :=
  map stop_after (List.filter long_gap (consecutive_pairs locations)).

(** ** Socket handlers *)

(** [io.on('connection')]: the socket is live, socket.io has put it in the
    room named by its own id, and its handlers are registered.  A
    connection never comes with the id of a live or of a closed socket;
    such a step is no step. *)
Definition connection (s : string) (σ : Server) : Server :=
  if decide (s ∈ sockets σ ∨ s ∈ retired σ) then σ
  else
    set_io ({[s]} ∪ sockets σ)
      (<[s := {[s]} ∪ room_members σ s]> (rooms σ))
      (activeConnections σ) (emitted σ) (outbox σ) σ.

(** [socket.on('join-tracking')].  Only a live socket dispatches events. *)
Definition join_tracking (s tid : string) (σ : Server) : Server :=
  if decide (s ∈ sockets σ) then
    socket_emit s (EvTrackingJoined tid)
      (set_io (sockets σ)
         (<[tid := {[s]} ∪ room_members σ tid]> (rooms σ))
         (<[s := tid]> (activeConnections σ))
         (emitted σ) (outbox σ) σ)
  else σ.

(** [socket.on('leave-tracking')]. *)
Definition leave_tracking (s tid : string) (σ : Server) : Server :=
  if decide (s ∈ sockets σ) then
    socket_emit s (EvTrackingLeft tid)
      (set_io (sockets σ)
         (<[tid := room_members σ tid ∖ {[s]}]> (rooms σ))
         (delete s (activeConnections σ))
         (emitted σ) (outbox σ) σ)
  else σ.

(** Disconnection: socket.io takes the socket out of every room, its own
    one too, then runs [socket.on('disconnect')], which forgets the socket
    in [activeConnections] when the tracking id it finds there is truthy. *)
Definition disconnect (s : string) (σ : Server) : Server :=
  if decide (s ∈ sockets σ) then
    set_retired ({[s]} ∪ retired σ)
      (set_io (sockets σ ∖ {[s]})
         ((λ members, members ∖ {[s]}) <$> rooms σ)
         (match activeConnections σ !! s with
          | Some tid =>
              if bool_decide (tid = "") then activeConnections σ
              else delete s (activeConnections σ)
          | None => activeConnections σ
          end)
         (emitted σ) (outbox σ) σ)
  else σ.

(** The steps of the fan-out layer: socket events, and the publication of
    an event to the room of a tracking link. *)
Inductive Msg : Type :=
  | MConnection (s : string)
  | MJoinTracking (s tid : string)
  | MLeaveTracking (s tid : string)
  | MDisconnect (s : string)
  | MPublish (tid : string) (ev : Event).

Definition step (σ : Server) (m : Msg) : Server :=
  match m with
  | MConnection s => connection s σ
  | MJoinTracking s tid => join_tracking s tid σ
  | MLeaveTracking s tid => leave_tracking s tid σ
  | MDisconnect s => disconnect s σ
  | MPublish tid ev => io_to_emit tid ev σ
  end.

Definition run (σ : Server) (trace : list Msg) : Server :=
  fold_left step trace σ.

(** The events a step hands to sockets: what it adds to [outbox]. *)
Definition delivered_by (σ : Server) (m : Msg) : list (string * Event) :=
  drop (length (outbox σ)) (outbox (step σ m)).

(** Only live sockets are in rooms. *)
Definition rooms_live (σ : Server) : Prop :=
  ∀ tid s, s ∈ room_members σ tid → s ∈ sockets σ.


(** ** Sample inputs *)

(** A well-formed sample near Istanbul, with a session id. *)
Definition sample_body : LocationBody :=
  {| trackingId := "3f2b8c1e-link";
     latitude := Num (410082 / 10000);
     longitude := Num (289784 / 10000);
     accuracy := Num 10;
     speed := Num 5;
     heading := NumUndefined;
     altitude := NumUndefined;
     userAgent := Str "Mozilla/5.0";
     ipAddress := Str "192.168.1.1";
     sessionId := Str "session-1";
     batteryLevel := NumUndefined;
     networkType := StrUndefined |}.

Definition with_coordinates (lat lon acc : JsNum) (b : LocationBody)
  : LocationBody :=
  {| trackingId := trackingId b;
     latitude := lat; longitude := lon; accuracy := acc;
     speed := speed b; heading := heading b; altitude := altitude b;
     userAgent := userAgent b; ipAddress := ipAddress b;
     sessionId := sessionId b;
     batteryLevel := batteryLevel b; networkType := networkType b |}.

Definition with_sessionId (sid : JsStr) (b : LocationBody) : LocationBody :=
  {| trackingId := trackingId b;
     latitude := latitude b; longitude := longitude b;
     accuracy := accuracy b;
     speed := speed b; heading := heading b; altitude := altitude b;
     userAgent := userAgent b; ipAddress := ipAddress b;
     sessionId := sid;
     batteryLevel := batteryLevel b; networkType := networkType b |}.


Definition env_ok (now : Z) : Env := {| insert_error := None; clock := now |}.
Definition env_fail (err : string) (now : Z) : Env :=
  {| insert_error := Some err; clock := now |}.

(** A deactivated link, as [DELETE /api/links/:id] leaves it. *)
Definition inactive_link : TrackingLink :=
  {| link_name := Some "old"; link_active := false;
     tracking_interval := 30; max_duration := 1440 |}.

(** A link with its [active] column set to [a]. *)
Definition set_link_active (a : bool) (l : TrackingLink) : TrackingLink :=
  {| link_name := link_name l; link_active := a;
     tracking_interval := tracking_interval l;
     max_duration := max_duration l |}.

Definition running_session : TrackingSession :=
  {| session_tracking_id := "3f2b8c1e-link"; started_at := 0;
     last_update := 0; is_active := true; total_locations := 0 |}.

(** A row of a route: coordinates, a speed reading and a timestamp. *)
Definition route_sample (lat lon : R) (speed : option R) (ts : Z)
  : LocationRow :=
  {| row_tracking_id := "3f2b8c1e-link";
     row_latitude := Some lat; row_longitude := Some lon;
     row_accuracy := Some 10%R; row_speed := speed;
     row_heading := Some 0%R; row_altitude := Some 0%R;
     row_timestamp := ts;
     row_user_agent := None; row_ip_address := None;
     row_session_id := Some "session-1";
     row_battery_level := None; row_network_type := None |}.

(** A [location-update] event of the sample body. *)
Definition sample_event : Event := web_event 1000 sample_body.

(** Two observers connect and the second one joins the link. *)
Definition sample_trace : list Msg :=
  [MConnection "sock-A"; MConnection "sock-B";
   MJoinTracking "sock-B" "3f2b8c1e-link"].

(** The two samples of the route scenario, two minutes apart, with speed
    readings 5 and 7. *)
Definition scenario_route (t0 : Z) : list LocationRow :=
  [route_sample (410082 / 10000) (289784 / 10000) (Some 5%R) t0;
   route_sample (410122 / 10000) (289844 / 10000) (Some 7%R) (t0 + 120000)].

(** A geofence of radius 100 around the second point of the scenario. *)
Definition sample_geofence : Geofence :=
  {| gf_id := 1;
     gf_tracking_id := "3f2b8c1e-link";
     gf_latitude := Some (410122 / 10000)%R;
     gf_longitude := Some (289844 / 10000)%R;
     gf_radius := Some 100%R;
     gf_action := Some "alert";
     gf_active := true |}.

Definition geofence_server : Server :=
  {| tracking_links := ∅; location_data := []; tracking_sessions := ∅;
     geofences := [sample_geofence]; sockets := ∅; rooms := ∅;
     activeConnections := ∅; emitted := []; outbox := []; retired := ∅ |}.

(** The geofence check asked from the first point of the scenario. *)
Definition sample_check : GeofenceBody :=
  {| gb_trackingId := "3f2b8c1e-link";
     gb_latitude := Num (410082 / 10000);
     gb_longitude := Num (289784 / 10000) |}.

(** ** Route analysis, summarised *)

(** The Haversine distance of a consecutive pair, in kilometres. *)
Definition pair_distance (p : LocationRow * LocationRow) : R :=
  calculateDistance (num_of (row_latitude p.1)) (num_of (row_longitude p.1))
    (num_of (row_latitude p.2)) (num_of (row_longitude p.2)).

Definition sum_R (l : list R) : R := fold_right Rplus 0%R l.

(** The speed readings that count: those of every sample but the first
    that are neither [NULL] nor zero. *)
Definition speed_readings (locations : list LocationRow) : list R :=
  map (λ r, num_of (row_speed r))
    (List.filter (λ r, speed_present (row_speed r)) (tail locations)).

(** ** Replies of the other endpoints *)

Inductive JsonValue : Type :=
  | JString (s : string)
  | JInt (z : Z)
  | JBool (b : bool).

(** What an endpoint sends: [res.json], [res.send] or [res.sendFile] (the
    path is relative to the directory of [server.js]). *)
Inductive Payload : Type :=
  | JsonObject (fields : list (string * JsonValue))
  | TextBody (text : string)
  | FileBody (path : string).

Record Reply : Type := { reply_status : Z; reply_payload : Payload }.

Definition json_error (code : Z) (msg : string) : Reply :=
  {| reply_status := code; reply_payload := JsonObject [("error", JString msg)] |}.

Definition json_ok (fields : list (string * JsonValue)) : Reply :=
  {| reply_status := 200; reply_payload := JsonObject fields |}.

(** The error of an [INSERT] whose [id] is already a primary key. *)
Definition primary_key_error (table : string) : string :=
  "SQLITE_CONSTRAINT: UNIQUE constraint failed: " ++ table ++ ".id".

(** What the environment decides for an [INSERT] under a fresh UUID: the
    value of [uuidv4()], an error of the statement other than a key
    conflict, and the current time. *)
Record InsertEnv : Type := {
  uuid : string;
  ins_error : option string;
  ins_clock : Z
}.

(** ** Sessions *)

(** [POST /api/start-session].  The new row takes the column defaults:
    active, no samples counted, both times the current time. *)
Definition start_session (env : InsertEnv) (tid : string) (σ : Server)
  : Reply * Server :=
  match ins_error env with
  | Some err => (json_error 500 err, σ)
  | None =>
      match tracking_sessions σ !! uuid env with
      | Some _ => (json_error 500 (primary_key_error "tracking_sessions"), σ)
      | None =>
          (json_ok [("sessionId", JString (uuid env))],
           set_tracking_sessions
             (<[uuid env :=
                  {| session_tracking_id := tid;
                     started_at := ins_clock env;
                     last_update := ins_clock env;
                     is_active := true;
                     total_locations := 0 |}]> (tracking_sessions σ)) σ)
      end
  end.

(** [POST /api/mobile/start-session]: the same row, with the device
    description in [device_info], a column the model does not keep, and an
    answer that also says ['started']. *)
Definition mobile_start_session (env : InsertEnv) (tid : string)
    (deviceInfo : option string) (σ : Server) : Reply * Server :=
  match ins_error env with
  | Some err => (json_error 500 err, σ)
  | None =>
      match tracking_sessions σ !! uuid env with
      | Some _ => (json_error 500 (primary_key_error "tracking_sessions"), σ)
      | None =>
          (json_ok [("sessionId", JString (uuid env));
                    ("status", JString "started")],
           set_tracking_sessions
             (<[uuid env :=
                  {| session_tracking_id := tid;
                     started_at := ins_clock env;
                     last_update := ins_clock env;
                     is_active := true;
                     total_locations := 0 |}]> (tracking_sessions σ)) σ)
      end
  end.

(** ** Tracking links *)

(** The deployment: [NODE_ENV === 'production'] and [PORT]. *)
Record Config : Type := { production : bool; PORT : string }.

(** The body of [POST /api/create-link]: a name, and the two hints, each
    an integer or absent. *)
Record CreateLinkBody : Type := {
  cl_name : JsStr;
  cl_trackingInterval : option Z;
  cl_maxDuration : option Z
}.

Definition baseUrl (cfg : Config) (host : string) : string :=
  if production cfg then "https://" ++ host
  else "http://localhost:" ++ PORT cfg.

(** [POST /api/create-link]. *)
Definition create_link (cfg : Config) (host : string) (env : InsertEnv)
    (b : CreateLinkBody) (σ : Server) : Reply * Server :=
  match ins_error env with
  | Some err => (json_error 500 err, σ)
  | None =>
      match tracking_links σ !! uuid env with
      | Some _ => (json_error 500 (primary_key_error "tracking_links"), σ)
      | None =>
          (json_ok
             [("trackingId", JString (uuid env));
              ("trackingUrl",
               JString (baseUrl cfg host ++ "/track/" ++ uuid env));
              ("qrCode",
               JString ("https://api.qrserver.com/v1/create-qr-code/?size=200x200&data="
                        ++ baseUrl cfg host ++ "/track/" ++ uuid env))],
           set_tracking_links
             (<[uuid env :=
                  {| link_name := sql_text (cl_name b);
                     link_active := true;
                     tracking_interval := default 30%Z (cl_trackingInterval b);
                     max_duration := default 1440%Z (cl_maxDuration b) |}]>
                (tracking_links σ)) σ)
      end
  end.

(** [GET /track/:id]: the page is served for an active link only. *)
Definition track_page (select_error : option string) (id : string)
    (σ : Server) : Reply :=
  match select_error with
  | Some _ => {| reply_status := 404; reply_payload := TextBody "Link bulunamadı" |}
  | None =>
      match tracking_links σ !! id with
      | Some l =>
          if link_active l
          then {| reply_status := 200; reply_payload := FileBody "public/track.html" |}
          else {| reply_status := 404; reply_payload := TextBody "Link bulunamadı" |}
      | None => {| reply_status := 404; reply_payload := TextBody "Link bulunamadı" |}
      end
  end.

Definition deactivate_link (l : TrackingLink) : TrackingLink :=
  {| link_name := link_name l;
     link_active := false;
     tracking_interval := tracking_interval l;
     max_duration := max_duration l |}.

(** The errors, if any, of the three statements of [DELETE /api/links/:id]. *)
Record DeleteEnv : Type := {
  del_select_error : option string;
  del_update_error : option string;
  del_delete_error : option string
}.

(** [DELETE /api/links/:id].  The link is looked up, deactivated, and its
    rows are deleted; a failing [DELETE] is only logged.  The innermost
    callback is an arrow function, so the [this.changes] it reports as
    [deletedLocations] is that of the [UPDATE], which changed the one link
    row. *)
Definition delete_link (env : DeleteEnv) (id : string) (σ : Server)
  : Reply * Server :=
  match del_select_error env with
  | Some err => (json_error 500 err, σ)
  | None =>
      match tracking_links σ !! id with
      | None => (json_error 404 "Link bulunamadı", σ)
      | Some _ =>
          match del_update_error env with
          | Some err => (json_error 500 err, σ)
          | None =>
              let σ1 :=
                set_tracking_links
                  (alter deactivate_link id (tracking_links σ)) σ in
              let σ2 :=
                match del_delete_error env with
                | Some _ => σ1
                | None =>
                    set_location_data
                      (List.filter
                         (λ r, negb (bool_decide (row_tracking_id r = id)))
                         (location_data σ1)) σ1
                end in
              (json_ok
                 [("success", JBool true);
                  ("message",
                   JString "Link başarıyla silindi ve tüm veriler temizlendi");
                  ("deletedLocations", JInt 1)],
               σ2)
          end
      end
  end.

(** ** Creating geofences *)

Record CreateGeofenceBody : Type := {
  cg_trackingId : string;
  cg_latitude : JsNum;
  cg_longitude : JsNum;
  cg_radius : JsNum;
  cg_action : JsStr
}.

Definition set_geofences (l : list Geofence) (σ : Server) : Server :=
  {| tracking_links := tracking_links σ; location_data := location_data σ;
     tracking_sessions := tracking_sessions σ; geofences := l;
     sockets := sockets σ; rooms := rooms σ;
     activeConnections := activeConnections σ;
     emitted := emitted σ; outbox := outbox σ; retired := retired σ |}.

(** The [AUTOINCREMENT] id of the next geofence.  No statement of the
    server deletes a geofence, so it is one more than the largest id in
    the table. *)
Definition next_geofence_id (σ : Server) : Z :=
  (1 + fold_right Z.max 0 (map gf_id (geofences σ)))%Z.

(** [POST /api/geofence]: the body is stored as it comes, unvalidated. *)
Definition create_geofence (insert_err : option string)
    (b : CreateGeofenceBody) (σ : Server) : Response * Server :=
  match insert_err with
  | Some err => (server_error err, σ)
  | None =>
      (ok "Geofence oluşturuldu",
       set_geofences
         (geofences σ ++
          [{| gf_id := next_geofence_id σ;
              gf_tracking_id := cg_trackingId b;
              gf_latitude := sql_real (cg_latitude b);
              gf_longitude := sql_real (cg_longitude b);
              gf_radius := sql_real (cg_radius b);
              gf_action := sql_text (cg_action b);
              gf_active := true |}]) σ)
  end.

(** ** Sequences of requests *)

(** The requests that change the tables and the fan-out state of the
    model, each with what the environment decides for it.  The two other
    writing endpoints, [/api/alarm] and [/api/notifications], write to
    tables the model does not keep. *)
Inductive Request : Type :=
  | RIngest (ep : Endpoint) (env : Env) (b : LocationBody)
  | RStartSession (env : InsertEnv) (tid : string)
  | RStopSession (update_error : option string) (sid : JsStr)
  | RCreateLink (cfg : Config) (host : string) (env : InsertEnv)
      (b : CreateLinkBody)
  | RDeleteLink (env : DeleteEnv) (id : string)
  | RCreateGeofence (insert_err : option string) (b : CreateGeofenceBody)
  | RSocket (m : Msg)
  | RMobileStartSession (env : InsertEnv) (tid : string)
      (deviceInfo : option string).

Definition handle (σ : Server) (r : Request) : Server :=
  match r with
  | RIngest ep env b => (ingest ep env b σ).2
  | RStartSession env tid => (start_session env tid σ).2
  | RStopSession err sid => (stop_session err sid σ).2
  | RCreateLink cfg host env b => (create_link cfg host env b σ).2
  | RDeleteLink env id => (delete_link env id σ).2
  | RCreateGeofence err b => (create_geofence err b σ).2
  | RSocket m => step σ m
  | RMobileStartSession env tid info => (mobile_start_session env tid info σ).2
  end.

Definition serve (σ : Server) (requests : list Request) : Server :=
  fold_left handle requests σ.

(** A session as it may become from [s]: same link and start, counter no
    smaller, and not active again once stopped. *)
Definition session_evolves (s s' : TrackingSession) : Prop :=
  session_tracking_id s' = session_tracking_id s
  ∧ started_at s' = started_at s
  ∧ (total_locations s <= total_locations s')%Z
  ∧ (is_active s = false → is_active s' = false).

(** A link as it may become from [l]: the same but possibly deactivated. *)
Definition link_evolves (l l' : TrackingLink) : Prop :=
  l' = l ∨ l' = deactivate_link l.

(** Entries of [activeConnections] belong to live sockets, or hold the
    empty tracking id. *)
Definition connections_tracked (σ : Server) : Prop :=
  ∀ s tid, activeConnections σ !! s = Some tid → s ∈ sockets σ ∨ tid = "".

(** ** Statistics *)

(** The row [GET /api/stats/:trackingId] answers with: [COUNT( * )],
    [COUNT(DISTINCT session_id)], [MAX(timestamp)] and [AVG(accuracy)] over
    the rows of the link.  Aggregates skip [NULL]s, and [MAX] and [AVG] of
    nothing are [NULL]. *)
Record Stats : Type := {
  st_total_locations : nat;
  st_total_sessions : nat;
  st_last_location : option Z;
  st_avg_accuracy : option R
}.

Definition rows_of (tid : string) (σ : Server) : list LocationRow :=
  List.filter (λ r, bool_decide (row_tracking_id r = tid)) (location_data σ).

Definition sql_max (l : list Z) : option Z :=
  match l with
  | [] => None
  | x :: l' => Some (fold_right Z.max x l')
  end.

Definition sql_avg (l : list R) : option R :=
  match l with
  | [] => None
  | _ :: _ => Some (sum_R l / INR (length l))%R
  end.

Definition stats_of (tid : string) (σ : Server) : Stats :=
  let rows := rows_of tid σ in
  {| st_total_locations := length rows;
     st_total_sessions :=
       size (list_to_set (omap row_session_id rows) : gset string);
     st_last_location := sql_max (map row_timestamp rows);
     st_avg_accuracy := sql_avg (omap row_accuracy rows) |}.

Inductive StatsReply : Type :=
  | StatsError (code : Z) (error : string)
  | StatsOk (stats : Stats).

(** [GET /api/stats/:trackingId]. *)
Definition get_stats (select_error : option string) (tid : string)
    (σ : Server) : StatsReply :=
  match select_error with
  | Some err => StatsError 500 err
  | None => StatsOk (stats_of tid σ)
  end.

(* ================================================================= *)
(** * Properties *)

(** Decides the real comparisons of a closed JavaScript test. *)
Ltac js_decide :=
  repeat (case_bool_decide; try lra; try congruence); simpl; try reflexivity.

(** ** Validation *)

Lemma truthy_zero : truthy (Num 0) = false.
Proof. simpl. rewrite bool_decide_eq_true_2; reflexivity. Qed.

Lemma truthy_num (x : R) : truthy (Num x) = true ↔ x ≠ 0%R.
Proof.
  simpl. case_bool_decide; simpl; split; intros; congruence.
Qed.

Lemma validate_sample_body : validateLocationData sample_body = None.
Proof. unfold validateLocationData, js_lt, js_gt; simpl. js_decide. Qed.

(** A request that the middleware answers leaves the state untouched, on
    every endpoint. *)
Lemma ingest_rejected (ep : Endpoint) (env : Env) (b : LocationBody)
    (σ : Server) (r : Response) :
  validateLocationData b = Some r → ingest ep env b σ = (r, σ).
Proof.
  intros Hv. destruct ep; simpl;
    unfold save_location, mobile_location, background_location;
    rewrite Hv; reflexivity.
Qed.

(** A zero among the three required fields fails the presence test. *)
Lemma validate_zero (b : LocationBody) :
  latitude b = Num 0 ∨ longitude b = Num 0 ∨ accuracy b = Num 0 →
  validateLocationData b = Some (bad_request "Eksik konum verileri").
Proof.
  intros H. unfold validateLocationData.
  destruct H as [H | [H | H]]; rewrite H, truthy_zero; simpl;
    repeat (destruct (truthy _); simpl); reflexivity.
Qed.

(** C10. On every endpoint guarded by [validateLocationData], a sample
    whose latitude, longitude or accuracy is the number 0 is answered with
    status 400 and the error 'Eksik konum verileri' (missing fields), and
    the server state is left as it was: such a sample is never accepted. *)
Theorem zero_rejected_as_missing (ep : Endpoint) (env : Env)
    (b : LocationBody) (σ : Server) :
  latitude b = Num 0 ∨ longitude b = Num 0 ∨ accuracy b = Num 0 →
  ingest ep env b σ = (bad_request "Eksik konum verileri", σ)
  ∧ attempts_insert ep b = false.
Proof.
  intros H. split.
  - apply ingest_rejected, validate_zero, H.
  - unfold attempts_insert. rewrite (validate_zero b H). reflexivity.
Qed.

Lemma zero_rejected_as_missing_witness :
  latitude (with_coordinates (Num 0) (Num (289784 / 10000)) (Num 10) sample_body)
    = Num 0
  ∧ ingest SaveLocation (env_ok 1000)
      (with_coordinates (Num 0) (Num (289784 / 10000)) (Num 10) sample_body)
      empty_server
    = (bad_request "Eksik konum verileri", empty_server).
Proof.
  split; [reflexivity |].
  apply (zero_rejected_as_missing SaveLocation (env_ok 1000)
           (with_coordinates (Num 0) (Num (289784 / 10000)) (Num 10) sample_body)
           empty_server).
  left. reflexivity.
Defined.

(** A missing ([undefined] or [null]) latitude, longitude or accuracy fails
    the presence test, whatever the other fields hold. *)
Lemma validate_missing (b : LocationBody) :
  (∀ x, latitude b ≠ Num x) ∨ (∀ x, longitude b ≠ Num x)
  ∨ (∀ x, accuracy b ≠ Num x) →
  validateLocationData b = Some (bad_request "Eksik konum verileri").
Proof.
  intros H. unfold validateLocationData.
  assert (Hf : ∀ v, (∀ x, v ≠ Num x) → truthy v = false).
  { intros [| | x] Hv; [reflexivity | reflexivity | destruct (Hv x); reflexivity]. }
  destruct H as [H | [H | H]]; rewrite (Hf _ H); simpl;
    repeat (destruct (truthy _); simpl); reflexivity.
Qed.

(** With three non-zero numbers, coordinates out of range are reported
    before the accuracy is looked at. *)
Lemma validate_coordinates (b : LocationBody) (x y z : R) :
  latitude b = Num x → longitude b = Num y → accuracy b = Num z →
  x ≠ 0%R → y ≠ 0%R → z ≠ 0%R →
  (x < -90 ∨ 90 < x ∨ y < -180 ∨ 180 < y)%R →
  validateLocationData b = Some (bad_request "Geçersiz koordinatlar").
Proof.
  intros Hx Hy Hz Hx0 Hy0 Hz0 Hr. unfold validateLocationData, js_lt, js_gt.
  rewrite Hx, Hy, Hz. simpl.
  rewrite !bool_decide_eq_false_2 by assumption. simpl.
  repeat case_bool_decide; simpl; try reflexivity; lra.
Qed.

(** With three non-zero numbers and coordinates in range, an accuracy out
    of [0, 10000] is reported. *)
Lemma validate_accuracy (b : LocationBody) (x y z : R) :
  latitude b = Num x → longitude b = Num y → accuracy b = Num z →
  x ≠ 0%R → y ≠ 0%R → z ≠ 0%R →
  (-90 <= x <= 90)%R → (-180 <= y <= 180)%R →
  (z < 0 ∨ 10000 < z)%R →
  validateLocationData b = Some (bad_request "Geçersiz hassasiyet değeri").
Proof.
  intros Hx Hy Hz Hx0 Hy0 Hz0 Hrx Hry Hr. unfold validateLocationData, js_lt, js_gt.
  rewrite Hx, Hy, Hz. simpl.
  rewrite !bool_decide_eq_false_2 by assumption. simpl.
  repeat case_bool_decide; simpl; try reflexivity; lra.
Qed.

(** The middleware calls [next()] exactly for three non-zero numbers in
    range. *)
Lemma validate_accepts (b : LocationBody) :
  validateLocationData b = None ↔
  ∃ x y z, latitude b = Num x ∧ longitude b = Num y ∧ accuracy b = Num z
    ∧ x ≠ 0%R ∧ y ≠ 0%R ∧ z ≠ 0%R
    ∧ (-90 <= x <= 90)%R ∧ (-180 <= y <= 180)%R ∧ (0 <= z <= 10000)%R.
Proof.
  unfold validateLocationData, js_lt, js_gt. split.
  - destruct (latitude b) as [| | x]; simpl; try discriminate.
    destruct (longitude b) as [| | y]; simpl;
      try (case_bool_decide; discriminate).
    destruct (accuracy b) as [| | z]; simpl;
      try (repeat case_bool_decide; discriminate).
    repeat case_bool_decide; simpl; try discriminate.
    intros _. exists x, y, z. repeat split; try assumption; lra.
  - intros (x & y & z & Hx & Hy & Hz & Hx0 & Hy0 & Hz0 & Hrx & Hry & Hrz).
    rewrite Hx, Hy, Hz. simpl.
    repeat case_bool_decide; simpl; try reflexivity; try contradiction; lra.
Qed.

(** [/api/save-location] and [/api/background-location] refuse a validated
    body without a session id, and write nothing. *)
Lemma session_required (ep : Endpoint) (env : Env) (b : LocationBody)
    (σ : Server) :
  ep ≠ MobileLocation →
  validateLocationData b = None →
  truthy_str (sessionId b) = false →
  ingest ep env b σ = (bad_request "Session ID gerekli", σ).
Proof.
  intros Hep Hv Hs. destruct ep; try congruence; simpl;
    unfold save_location, background_location; rewrite Hv, Hs; reflexivity.
Qed.

(** C5. The code at the failing input: latitude 95 is out of range and
    nothing is [null], yet the answer of [/api/save-location] is the
    'missing fields' error 'Eksik konum verileri' and not the 'invalid
    coordinates' error, because the longitude 0 is falsy. *)
Theorem out_of_range_reported_as_missing (env : Env) (σ : Server) :
  let b := with_coordinates (Num 95) (Num 0) (Num 10) sample_body in
  save_location env b σ = (bad_request "Eksik konum verileri", σ)
  ∧ save_location env b σ ≠ (bad_request "Geçersiz koordinatlar", σ).
Proof.
  intros b.
  assert (H : save_location env b σ = (bad_request "Eksik konum verileri", σ)).
  { apply (ingest_rejected SaveLocation), validate_zero.
    right; left; reflexivity. }
  split; [exact H |]. rewrite H. intros Heq. inversion Heq.
Qed.

(** ** Session ids of persisted rows *)

(** What an endpoint does once it reaches its [INSERT]. *)
Lemma ingest_attempted (ep : Endpoint) (env : Env) (b : LocationBody)
    (σ : Server) :
  attempts_insert ep b = true →
  ingest ep env b σ =
  persist_and_publish env (ingest_row ep (clock env) b)
    (ingest_event ep (clock env) b) b
    (match ep with
     | BackgroundLocation => "Arka plan konumu kaydedildi"
     | _ => "Konum kaydedildi"
     end) σ.
Proof.
  unfold attempts_insert. destruct (validateLocationData b) eqn:Hv; [discriminate |].
  destruct ep; simpl; unfold save_location, mobile_location, background_location;
    rewrite Hv; intros Hs; try rewrite Hs; reflexivity.
Qed.

(** The middleware only ever answers with a 400. *)
Lemma validate_answers_400 (b : LocationBody) (r : Response) :
  validateLocationData b = Some r → ∃ msg, r = bad_request msg.
Proof.
  unfold validateLocationData.
  repeat match goal with
         | |- context [if ?c then _ else _] => destruct c
         end; intros H; inversion H; eexists; reflexivity.
Qed.

(** What an endpoint does when it does not reach its [INSERT]. *)
Lemma ingest_not_attempted (ep : Endpoint) (env : Env) (b : LocationBody)
    (σ : Server) :
  attempts_insert ep b = false →
  ∃ msg, ingest ep env b σ = (bad_request msg, σ).
Proof.
  unfold attempts_insert.
  destruct (validateLocationData b) as [r |] eqn:Hv.
  - intros _. destruct (validate_answers_400 b r Hv) as [msg ->].
    exists msg. apply ingest_rejected, Hv.
  - destruct ep; try discriminate; intros Hs;
      exists "Session ID gerekli"; apply session_required;
      solve [assumption | discriminate].
Qed.

Lemma location_data_persist (env : Env) (row : LocationRow) (ev : Event)
    (b : LocationBody) (msg : string) (σ : Server) :
  location_data (persist_and_publish env row ev b msg σ).2 =
  match insert_error env with
  | Some _ => location_data σ
  | None => (location_data σ ++ [row])%list
  end.
Proof.
  unfold persist_and_publish, update_session.
  destruct (insert_error env); simpl; [reflexivity |].
  destruct (sql_text (sessionId b)); reflexivity.
Qed.

(** The sibling endpoints: every row [/api/save-location] and
    [/api/background-location] append carries a non-empty session id. *)
Lemma web_rows_have_session (ep : Endpoint) (env : Env) (b : LocationBody)
    (σ : Server) :
  ep ≠ MobileLocation →
  location_data (ingest ep env b σ).2 = location_data σ
  ∨ ∃ row sid,
      location_data (ingest ep env b σ).2 = (location_data σ ++ [row])%list
      ∧ row_session_id row = Some sid ∧ sid ≠ "".
Proof.
  intros Hep. destruct (attempts_insert ep b) eqn:Ha.
  - rewrite (ingest_attempted _ _ _ _ Ha), location_data_persist.
    destruct (insert_error env); [left; reflexivity | right].
    exists (ingest_row ep (clock env) b).
    unfold attempts_insert in Ha.
    destruct (validateLocationData b); [discriminate |].
    destruct ep; try congruence; simpl;
      (destruct (sessionId b) as [| | sid]; simpl in Ha; try discriminate;
       exists sid; repeat split; case_bool_decide; simpl in Ha; congruence).
  - destruct (ingest_not_attempted ep env b σ Ha) as [msg ->]. left; reflexivity.
Qed.

(** C4. The code at the failing input: [/api/mobile/location] has no
    session check, so a validated body without [sessionId] is answered with
    success and its row is appended with a [NULL] session id. *)
Theorem mobile_location_persists_without_session (now : Z) :
  let b := with_sessionId StrUndefined sample_body in
  mobile_location (env_ok now) b empty_server
  = (ok "Konum kaydedildi",
     io_to_emit (trackingId b) (mobile_event now b)
       (set_location_data [mobile_row now b] empty_server))
  ∧ row_session_id (mobile_row now b) = None
  ∧ location_data (mobile_location (env_ok now) b empty_server).2
    = [mobile_row now b].
Proof.
  intros b.
  assert (Hv : validateLocationData b = None) by exact validate_sample_body.
  unfold mobile_location. rewrite Hv. repeat split.
Qed.

(** ** Ingest and the tracking links *)

Lemma set_tracking_links_persist (env : Env) (row : LocationRow) (ev : Event)
    (b : LocationBody) (msg : string) (σ : Server)
    (links : gmap string TrackingLink) :
  persist_and_publish env row ev b msg (set_tracking_links links σ) =
  ((persist_and_publish env row ev b msg σ).1,
   set_tracking_links links (persist_and_publish env row ev b msg σ).2).
Proof.
  unfold persist_and_publish, update_session.
  destruct (insert_error env); [reflexivity |].
  destruct (sql_text (sessionId b)); reflexivity.
Qed.

(** No ingest endpoint reads [tracking_links]: replacing the table changes
    neither the response nor the effect of a call. *)
Lemma ingest_links_irrelevant (ep : Endpoint) (env : Env) (b : LocationBody)
    (σ : Server) (links : gmap string TrackingLink) :
  ingest ep env b (set_tracking_links links σ) =
  ((ingest ep env b σ).1, set_tracking_links links (ingest ep env b σ).2).
Proof.
  destruct ep; simpl; unfold save_location, mobile_location, background_location;
    destruct (validateLocationData b); try reflexivity;
    try (destruct (truthy_str (sessionId b)); simpl; try reflexivity);
    apply set_tracking_links_persist.
Qed.

(** C3, as the code has it, for a sample whose [trackingId] names an
    existing link.  The ingest endpoints do not look at the [active] column
    of that link: the answer and the effect of a call are the same whether
    the link is active or deactivated.  Such a sample is turned away before
    the [INSERT] only by the validation middleware and the session check;
    one that passes them is appended under its own [trackingId] whenever
    the [INSERT] succeeds, and the link it references is still in the
    table. *)
Theorem ingest_ignores_active_flag (ep : Endpoint) (env : Env)
    (b : LocationBody) (σ : Server) (l : TrackingLink) (a : bool) :
  tracking_links σ !! trackingId b = Some l →
  let links := <[trackingId b := set_link_active a l]> (tracking_links σ) in
  ingest ep env b (set_tracking_links links σ) =
    ((ingest ep env b σ).1, set_tracking_links links (ingest ep env b σ).2)
  ∧ (attempts_insert ep b = true → insert_error env = None →
     location_data (ingest ep env b σ).2 =
       (location_data σ ++ [ingest_row ep (clock env) b])%list
     ∧ row_tracking_id (ingest_row ep (clock env) b) = trackingId b
     ∧ tracking_links (ingest ep env b σ).2 !! trackingId b = Some l).
Proof.
  intros Hl links. split; [apply ingest_links_irrelevant |].
  intros Ha He. split; [| split].
  - rewrite (ingest_attempted _ _ _ _ Ha), location_data_persist, He.
    reflexivity.
  - destruct ep; reflexivity.
  - rewrite (ingest_attempted _ _ _ _ Ha).
    unfold persist_and_publish, update_session. rewrite He.
    destruct (sql_text (sessionId b)); exact Hl.
Qed.

Lemma ingest_ignores_active_flag_witness :
  let σ := set_tracking_links {[ "3f2b8c1e-link" := inactive_link ]}
             empty_server in
  tracking_links σ !! trackingId sample_body = Some inactive_link
  ∧ attempts_insert SaveLocation sample_body = true
  ∧ insert_error (env_ok 1000) = None
  ∧ location_data (ingest SaveLocation (env_ok 1000) sample_body σ).2
    = [web_row 1000 sample_body].
Proof.
  intros σ.
  assert (Hl : tracking_links σ !! trackingId sample_body = Some inactive_link)
    by apply lookup_singleton_eq.
  assert (Ha : attempts_insert SaveLocation sample_body = true).
  { unfold attempts_insert. rewrite validate_sample_body. reflexivity. }
  split; [exact Hl |]. split; [exact Ha |]. split; [reflexivity |].
  exact (proj1 (proj2 (ingest_ignores_active_flag SaveLocation (env_ok 1000)
                        sample_body σ inactive_link true Hl) Ha eq_refl)).
Defined.

(** C3 fails as stated: a sample for an existing link whose [active] column
    is cleared is accepted and written to [location_data]. *)
Lemma sample_for_inactive_link_persisted :
  let σ := set_tracking_links {[ "3f2b8c1e-link" := inactive_link ]} empty_server in
  tracking_links σ !! trackingId sample_body = Some inactive_link
  ∧ link_active inactive_link = false
  ∧ (save_location (env_ok 1000) sample_body σ).1 = ok "Konum kaydedildi"
  ∧ location_data (save_location (env_ok 1000) sample_body σ).2
    = [web_row 1000 sample_body]
  ∧ (mobile_location (env_ok 1000) sample_body σ).1 = ok "Konum kaydedildi"
  ∧ location_data (mobile_location (env_ok 1000) sample_body σ).2
    = [mobile_row 1000 sample_body].
Proof.
  unfold save_location, mobile_location. rewrite validate_sample_body.
  repeat split.
Qed.

(** ** Stopping a session *)

Lemma set_tracking_sessions_same (σ : Server) :
  set_tracking_sessions (tracking_sessions σ) σ = σ.
Proof. destruct σ; reflexivity. Qed.

(** C6, as the code has it.  Unless the [UPDATE] itself fails,
    [/api/stop-session] answers with success for every session id.  The
    active flag of an existing session is cleared and no other session
    changes; for an id that names no session nothing changes.  When the
    [UPDATE] fails the answer is a 500 and nothing changes either. *)
Theorem stop_session_reports_success (sid : JsStr) (σ : Server) :
  (stop_session None sid σ).1 = ok "Session durduruldu"
  ∧ (∀ id s, sid = Str id → tracking_sessions σ !! id = Some s →
       tracking_sessions (stop_session None sid σ).2 !! id = Some (deactivate s)
       ∧ is_active (deactivate s) = false)
  ∧ (∀ id id', sid = Str id → id ≠ id' →
       tracking_sessions (stop_session None sid σ).2 !! id'
       = tracking_sessions σ !! id')
  ∧ ((∀ id, sid = Str id → tracking_sessions σ !! id = None) →
       (stop_session None sid σ).2 = σ)
  ∧ (∀ err, stop_session (Some err) sid σ = (server_error err, σ)).
Proof.
  split; [reflexivity |]. split; [| split; [| split]].
  - intros id s -> Hs. simpl. rewrite lookup_alter_eq, Hs. split; reflexivity.
  - intros id id' -> Hne. simpl. apply lookup_alter_ne, Hne.
  - intros Hnone. destruct sid as [| | id]; try reflexivity. simpl.
    rewrite alter_id' by exact (Hnone id eq_refl).
    apply set_tracking_sessions_same.
  - reflexivity.
Qed.

Lemma stop_session_reports_success_witness :
  let σ := set_tracking_sessions {[ "session-1" := running_session ]}
             empty_server in
  tracking_sessions σ !! "session-1" = Some running_session
  ∧ tracking_sessions (stop_session None (Str "session-1") σ).2 !! "session-1"
    = Some (deactivate running_session)
  ∧ is_active (deactivate running_session) = false.
Proof.
  intros σ.
  assert (Hl : tracking_sessions σ !! "session-1" = Some running_session)
    by (simpl; apply lookup_singleton_eq).
  split; [exact Hl |].
  exact (proj1 (proj2 (stop_session_reports_success (Str "session-1") σ))
           "session-1" running_session eq_refl Hl).
Defined.

(** C6 fails as stated: stopping a session that does not exist is answered
    with success, not with a not-found error. *)
Lemma stop_unknown_session_succeeds :
  tracking_sessions empty_server !! "no-such-session" = None
  ∧ stop_session None (Str "no-such-session") empty_server
    = ({| status := 200; body := SuccessBody "Session durduruldu" |},
       empty_server).
Proof.
  split; [reflexivity |]. unfold stop_session. simpl.
  rewrite alter_empty. reflexivity.
Qed.

(** ** Storage failures and publication *)

(** The effect of the [INSERT] callback when the statement succeeded. *)
Lemma persist_and_publish_ok (env : Env) (row : LocationRow) (ev : Event)
    (b : LocationBody) (msg : string) (σ : Server) :
  insert_error env = None →
  let σ' := (persist_and_publish env row ev b msg σ).2 in
  (persist_and_publish env row ev b msg σ).1 = ok msg
  ∧ location_data σ' = (location_data σ ++ [row])%list
  ∧ emitted σ' = (emitted σ ++ [(trackingId b, ev)])%list
  ∧ outbox σ' =
    (outbox σ ++ map (λ s, (s, ev)) (elements (room_members σ (trackingId b))))%list.
Proof.
  intros He. unfold persist_and_publish, update_session. rewrite He.
  destruct (sql_text (sessionId b)); repeat split.
Qed.

(** C7. When the [INSERT] of an ingest call fails, the call is answered
    with status 500 carrying the storage error, and the server state is
    exactly what it was: no row, no session update, no emitted event and no
    delivery.  Conversely a call changes the state only when its [INSERT]
    succeeded, and then the row is in [location_data] when the one
    [location-update] event is emitted to the room of the tracking id. *)
Theorem storage_failure_publishes_nothing (ep : Endpoint) (env : Env)
    (b : LocationBody) (σ : Server) :
  (∀ err, insert_error env = Some err → attempts_insert ep b = true →
     ingest ep env b σ = (server_error err, σ))
  ∧ (∀ err, insert_error env = Some err →
       (ingest ep env b σ).2 = σ
       ∧ emitted (ingest ep env b σ).2 = emitted σ
       ∧ outbox (ingest ep env b σ).2 = outbox σ)
  ∧ ((ingest ep env b σ).2 = σ
     ∨ (insert_error env = None
        ∧ attempts_insert ep b = true
        ∧ location_data (ingest ep env b σ).2 =
          (location_data σ ++ [ingest_row ep (clock env) b])%list
        ∧ emitted (ingest ep env b σ).2 =
          (emitted σ ++ [(trackingId b, ingest_event ep (clock env) b)])%list
        ∧ outbox (ingest ep env b σ).2 =
          (outbox σ ++ map (λ s, (s, ingest_event ep (clock env) b))
                         (elements (room_members σ (trackingId b))))%list)).
Proof.
  assert (Hfail : ∀ err, insert_error env = Some err →
            (ingest ep env b σ).2 = σ).
  { intros err He. destruct (attempts_insert ep b) eqn:Ha.
    - rewrite (ingest_attempted _ _ _ _ Ha). unfold persist_and_publish.
      rewrite He. reflexivity.
    - destruct (ingest_not_attempted ep env b σ Ha) as [msg ->]. reflexivity. }
  split; [| split].
  - intros err He Ha. rewrite (ingest_attempted _ _ _ _ Ha).
    unfold persist_and_publish. rewrite He. reflexivity.
  - intros err He. rewrite (Hfail err He). repeat split.
  - destruct (insert_error env) as [err |] eqn:He.
    + left. apply (Hfail err eq_refl).
    + destruct (attempts_insert ep b) eqn:Ha.
      * right. rewrite (ingest_attempted _ _ _ _ Ha).
        destruct (persist_and_publish_ok env (ingest_row ep (clock env) b)
                    (ingest_event ep (clock env) b) b
                    (match ep with
                     | BackgroundLocation => "Arka plan konumu kaydedildi"
                     | _ => "Konum kaydedildi"
                     end) σ He) as (_ & Hl & Hem & Hob).
        repeat split; assumption.
      * left. destruct (ingest_not_attempted ep env b σ Ha) as [msg ->].
        reflexivity.
Qed.

Lemma storage_failure_publishes_nothing_witness :
  insert_error (env_fail "SQLITE_FULL: database or disk is full" 1000)
    = Some "SQLITE_FULL: database or disk is full"
  ∧ attempts_insert SaveLocation sample_body = true
  ∧ ingest SaveLocation (env_fail "SQLITE_FULL: database or disk is full" 1000)
      sample_body empty_server
    = (server_error "SQLITE_FULL: database or disk is full", empty_server).
Proof.
  assert (Ha : attempts_insert SaveLocation sample_body = true).
  { unfold attempts_insert. rewrite validate_sample_body. reflexivity. }
  split; [reflexivity |]. split; [exact Ha |].
  exact (proj1 (storage_failure_publishes_nothing SaveLocation
                  (env_fail "SQLITE_FULL: database or disk is full" 1000)
                  sample_body empty_server)
           "SQLITE_FULL: database or disk is full" eq_refl Ha).
Defined.

(** ** Route analysis: stops *)

(** The stops the loop adds are those of the pairs it walks. *)
Lemma route_loop_stops (rest : list LocationRow) :
  ∀ (prev : LocationRow) (acc : RouteAcc),
    acc_stops (route_loop prev rest acc) =
    (acc_stops acc ++ spec_stops (prev :: rest))%list.
Proof.
  induction rest as [| curr rest IH]; intros prev acc.
  - simpl. rewrite app_nil_r. reflexivity.
  - simpl route_loop. rewrite IH. unfold spec_stops.
    change (consecutive_pairs (prev :: curr :: rest))
      with ((prev, curr) :: consecutive_pairs (curr :: rest)).
    simpl List.filter. unfold route_step, long_gap at 2, timeDiff.
    change (5 * 60 * 1000)%Z with 300000%Z. cbn [acc_stops fst snd].
    destruct (300000 <? row_timestamp curr - row_timestamp prev)%Z.
    + rewrite <- app_assoc. cbn [map app]. do 2 f_equal.
      unfold stop_after. cbn [fst snd]. f_equal. lra.
    + reflexivity.
Qed.

Lemma analyzeRoute_stops (locations : list LocationRow) :
  stops (analyzeRoute locations) = spec_stops locations.
Proof.
  destruct locations as [| first [| second rest]]; try reflexivity.
  unfold analyzeRoute. cbv beta iota zeta. unfold stops at 1.
  rewrite route_loop_stops. reflexivity.
Qed.

(** C8. The stops of [analyzeRoute] are exactly one stop for each
    consecutive pair whose gap exceeds five minutes, at the later sample's
    coordinates, with the gap in minutes as duration and the later sample's
    timestamp.  Two samples ten minutes apart give one stop of duration 10;
    two samples exactly five minutes apart give none. *)
Theorem stops_are_long_gaps (locations : list LocationRow) :
  stops (analyzeRoute locations) =
    map stop_after (List.filter long_gap (consecutive_pairs locations))
  ∧ length (stops (analyzeRoute locations)) =
    length (List.filter long_gap (consecutive_pairs locations))
  ∧ (∀ a b, (row_timestamp b - row_timestamp a = 10 * 60 * 1000)%Z →
       stops (analyzeRoute [a; b]) =
       [{| stop_latitude := row_latitude b;
           stop_longitude := row_longitude b;
           stop_duration := 10;
           stop_timestamp := row_timestamp b |}])
  ∧ (∀ a b, (row_timestamp b - row_timestamp a = 5 * 60 * 1000)%Z →
       stops (analyzeRoute [a; b]) = []).
Proof.
  split; [apply analyzeRoute_stops |]. split; [| split].
  - rewrite analyzeRoute_stops. unfold spec_stops. apply length_map.
  - intros a b Hgap. rewrite analyzeRoute_stops.
    change (10 * 60 * 1000)%Z with 600000%Z in Hgap.
    unfold spec_stops, long_gap, stop_after. cbn [consecutive_pairs List.filter fst snd].
    rewrite Hgap. cbn [Z.ltb Z.compare Pos.compare Pos.compare_cont map fst snd].
    rewrite Hgap. do 2 f_equal. lra.
  - intros a b Hgap. rewrite analyzeRoute_stops.
    unfold spec_stops, long_gap. simpl. rewrite Hgap. reflexivity.
Qed.

Lemma stops_are_long_gaps_witness :
  let a := route_sample (410082 / 10000) (289784 / 10000) (Some 5%R) 0 in
  let b := route_sample (410122 / 10000) (289844 / 10000) (Some 7%R) 600000 in
  (row_timestamp b - row_timestamp a = 10 * 60 * 1000)%Z
  ∧ stops (analyzeRoute [a; b]) =
    [{| stop_latitude := Some (410122 / 10000)%R;
        stop_longitude := Some (289844 / 10000)%R;
        stop_duration := 10;
        stop_timestamp := 600000 |}].
Proof.
  intros a b. split; [reflexivity |].
  exact (proj1 (proj2 (proj2 (stops_are_long_gaps [a; b]))) a b eq_refl).
Defined.

(** ** Fan-out *)

Lemma run_app (σ : Server) (t1 t2 : list Msg) :
  run σ (t1 ++ t2) = run (run σ t1) t2.
Proof. apply fold_left_app. Qed.

Lemma run_cons (σ : Server) (m : Msg) (t : list Msg) :
  run σ (m :: t) = run (step σ m) t.
Proof. reflexivity. Qed.

(** Who is live after a step. *)
Lemma elem_of_sockets_step (σ : Server) (m : Msg) (x : string) :
  x ∈ sockets (step σ m) ↔
  match m with
  | MConnection s => x ∈ sockets σ ∨ (x = s ∧ (s ∉ retired σ))
  | MDisconnect s => x ∈ sockets σ ∧ x ≠ s
  | _ => x ∈ sockets σ
  end.
Proof.
  destruct m as [s | s tid | s tid | s | tid ev]; simpl;
    unfold connection, join_tracking, leave_tracking, disconnect;
    try case_decide; simpl; set_solver.
Qed.

(** An id that names a live or a closed socket keeps doing so. *)
Lemma id_taken_step (σ : Server) (m : Msg) (x : string) :
  x ∈ sockets σ ∨ x ∈ retired σ →
  x ∈ sockets (step σ m) ∨ x ∈ retired (step σ m).
Proof.
  destruct m as [s | s tid | s tid | s | tid ev]; simpl;
    unfold connection, join_tracking, leave_tracking, disconnect;
    try case_decide; simpl; try tauto.
  - set_solver.
  - destruct (decide (x = s)) as [-> | Hne]; set_solver.
Qed.

(** Who is in a room after a step. *)
Lemma elem_of_room_step (σ : Server) (m : Msg) (room x : string) :
  x ∈ room_members (step σ m) room ↔
  match m with
  | MJoinTracking s tid =>
      x ∈ room_members σ room ∨ (s ∈ sockets σ ∧ tid = room ∧ x = s)
  | MLeaveTracking s tid =>
      x ∈ room_members σ room ∧ ¬ (s ∈ sockets σ ∧ tid = room ∧ x = s)
  | MDisconnect s =>
      x ∈ room_members σ room ∧ ¬ (s ∈ sockets σ ∧ x = s)
  | MConnection s =>
      x ∈ room_members σ room
      ∨ (room = s ∧ x = s ∧ (s ∉ sockets σ) ∧ (s ∉ retired σ))
  | MPublish _ _ => x ∈ room_members σ room
  end.
Proof.
  destruct m as [s | s tid | s tid | s | tid ev]; simpl.
  - unfold connection. case_decide as Hs; [tauto |].
    unfold room_members. simpl.
    destruct (decide (s = room)) as [-> | Hne].
    + rewrite lookup_insert_eq. simpl. set_solver.
    + rewrite lookup_insert_ne by assumption. set_solver.
  - unfold join_tracking. case_decide as Hs; [| tauto].
    unfold room_members. simpl.
    destruct (decide (tid = room)) as [-> | Hne].
    + rewrite lookup_insert_eq. simpl. set_solver.
    + rewrite lookup_insert_ne by assumption. tauto.
  - unfold leave_tracking. case_decide as Hs; [| tauto].
    unfold room_members. simpl.
    destruct (decide (tid = room)) as [-> | Hne].
    + rewrite lookup_insert_eq. simpl. set_solver.
    + rewrite lookup_insert_ne by assumption. tauto.
  - unfold disconnect. case_decide as Hs; [| tauto].
    unfold room_members. simpl. rewrite lookup_fmap.
    destruct (rooms σ !! room); simpl; set_solver.
  - reflexivity.
Qed.

Lemma rooms_live_empty : rooms_live empty_server.
Proof. intros tid s. unfold room_members. simpl. rewrite lookup_empty. set_solver. Qed.

Lemma rooms_live_step (σ : Server) (m : Msg) :
  rooms_live σ → rooms_live (step σ m).
Proof.
  intros Hlive tid x Hx.
  apply elem_of_room_step in Hx. apply elem_of_sockets_step.
  destruct m as [s | s t | s t | s | t ev]; simpl in *.
  - destruct Hx as [Hx | (_ & -> & _ & Hr)];
      [left; apply (Hlive tid), Hx | right; split; [reflexivity | exact Hr]].
  - destruct Hx as [Hx | (Hs & _ & ->)]; [apply (Hlive tid), Hx | exact Hs].
  - apply (Hlive tid), Hx.
  - destruct Hx as [Hx Hn]. pose proof (Hlive tid x Hx) as Hsx.
    split; [exact Hsx |]. intros ->. apply Hn. split; [exact Hsx | reflexivity].
  - apply (Hlive tid), Hx.
Qed.



(** A socket is in no room it never asked to join, its own one apart:
    that one it enters when it connects, which an id that is already taken
    does not do again. *)
Lemma not_member_kept (trace : list Msg) (σ : Server) (s tid : string) :
  s ∉ room_members σ tid →
  tid ≠ s ∨ s ∈ sockets σ ∨ s ∈ retired σ →
  (∀ m, m ∈ trace → m ≠ MJoinTracking s tid) →
  s ∉ room_members (run σ trace) tid.
Proof.
  revert σ.
  induction trace as [| m trace IH]; intros σ Hout Hown Hok; [exact Hout |].
  rewrite run_cons. apply IH.
  - intros Hin. apply elem_of_room_step in Hin.
    pose proof (Hok m (list_elem_of_here _ _)) as Hj.
    destruct m as [s' | s' t | s' t | s' | t ev]; simpl in Hin; try tauto.
    + destruct Hin as [Hin | (-> & -> & Hs & Hr)]; tauto.
    + destruct Hin as [Hin | (_ & -> & ->)]; [tauto | congruence].
  - destruct Hown as [Hne | Htaken]; [left; exact Hne |].
    right. apply id_taken_step, Htaken.
  - intros m' Hm'. apply Hok. apply list_elem_of_further, Hm'.
Qed.


(** What a publication hands out: the event, once to each socket that is
    in the room at that moment. *)
Lemma delivered_by_publish (σ : Server) (tid : string) (ev : Event) :
  delivered_by σ (MPublish tid ev) =
  map (λ s, (s, ev)) (elements (room_members σ tid)).
Proof.
  unfold delivered_by. simpl. apply drop_app_length.
Qed.

Lemma elem_of_delivered_by_publish (σ : Server) (tid : string) (ev e : Event)
    (s : string) :
  (s, e) ∈ delivered_by σ (MPublish tid ev) ↔ e = ev ∧ s ∈ room_members σ tid.
Proof.
  rewrite delivered_by_publish, list_elem_of_fmap. split.
  - intros (x & Heq & Hx). inversion Heq; subst.
    split; [reflexivity |]. apply elem_of_elements, Hx.
  - intros (-> & Hs). exists s. split; [reflexivity |].
    apply elem_of_elements, Hs.
Qed.






(** ** Geo math: numeric bounds *)

Section GeoMath.
Local Open Scope R_scope.

Lemma calculateDistance_eq (lat1 lon1 lat2 lon2 : R) :
  calculateDistance lat1 lon1 lat2 lon2 =
  6371 * (2 * Math_atan2 (sqrt (haversine_a lat1 lon1 lat2 lon2))
                (sqrt (1 - haversine_a lat1 lon1 lat2 lon2))).
Proof. reflexivity. Qed.

Lemma PI_bounds : 31415 / 10000 < PI < 31421 / 10000.
Proof.
  pose proof (PI_2_3_7_ineq 1) as H.
  unfold sum_f_R0, tg_alt, PI_2_3_7_tg, Ratan_seq in H.
  simpl in H. lra.
Qed.

Lemma INR_fact (n : nat) (z : Z) : Z.of_nat (fact n) = z → INR (fact n) = IZR z.
Proof. intros <-. apply INR_IZR_INZ. Qed.

Lemma cos_taylor (x : R) :
  -2 <= x <= 2 →
  1 - x ^ 2 / 2 + x ^ 4 / 24 - x ^ 6 / 720 <= cos x <= 1 - x ^ 2 / 2 + x ^ 4 / 24.
Proof.
  intros [H1 H2].
  pose proof (pre_cos_bound x 0 H1 H2) as [_ Hu].
  pose proof (pre_cos_bound x 1 H1 H2) as [Hl _].
  unfold cos_approx in Hu, Hl. cbn [sum_f_R0 Nat.mul Nat.add] in Hu, Hl.
  unfold cos_term in Hu, Hl. cbn [Nat.mul Nat.add] in Hu, Hl.
  rewrite (INR_fact 0 1 eq_refl), (INR_fact 2 2 eq_refl),
    (INR_fact 4 24 eq_refl) in Hu, Hl.
  rewrite (INR_fact 6 720 eq_refl) in Hl.
  lra.
Qed.

Lemma sin_taylor (x : R) : 0 <= x <= 4 → x - x ^ 3 / 6 <= sin x <= x.
Proof.
  intros [H1 H2]. split.
  - pose proof (pre_sin_bound x 0 H1 H2) as [Hl _].
    unfold sin_approx in Hl. cbn [sum_f_R0 Nat.mul Nat.add] in Hl.
    unfold sin_term in Hl. cbn [Nat.mul Nat.add] in Hl.
    rewrite (INR_fact 1 1 eq_refl), (INR_fact 3 6 eq_refl) in Hl.
    lra.
  - destruct (Req_dec x 0) as [-> | Hx]; [rewrite sin_0; lra |].
    left. apply sin_lt_x. lra.
Qed.

Lemma cos_between (x lo hi : R) :
  0 <= lo <= x → x <= hi <= 2 →
  1 - hi ^ 2 / 2 + hi ^ 4 / 24 - hi ^ 6 / 720 <= cos x
    <= 1 - lo ^ 2 / 2 + lo ^ 4 / 24.
Proof.
  intros [Hlo Hx] [Hx' Hhi]. pose proof PI_bounds as [HP _].
  split.
  - apply Rle_trans with (cos hi).
    + apply cos_taylor. lra.
    + apply cos_decr_1; lra.
  - apply Rle_trans with (cos lo).
    + apply cos_decr_1; lra.
    + apply cos_taylor. lra.
Qed.

Lemma sin_between (x lo hi : R) :
  0 <= lo <= x → x <= hi <= 1 → lo - lo ^ 3 / 6 <= sin x <= hi.
Proof.
  intros [Hlo Hx] [Hx' Hhi]. pose proof PI_bounds as [HP _].
  split.
  - apply Rle_trans with (sin lo).
    + apply sin_taylor. lra.
    + apply sin_incr_1; lra.
  - apply Rle_trans with x; [| lra]. apply sin_taylor. lra.
Qed.

Lemma scenario_haversine :
  2778 / 10 ^ 12 <=
  haversine_a (410082 / 10000) (289784 / 10000) (410122 / 10000) (289844 / 10000)
  <= 2782 / 10 ^ 12.
Proof.
  pose proof PI_bounds as [HP1 HP2]. unfold haversine_a.
  assert (Hu : 34905 / 10 ^ 9 <=
               sin ((410122 / 10000 - 410082 / 10000) * PI / 180 / 2)
               <= 34913 / 10 ^ 9).
  { pose proof (sin_between ((410122 / 10000 - 410082 / 10000) * PI / 180 / 2)
                  (31415 / 10000 / 90000) (31421 / 10000 / 90000)) as H.
    lra. }
  assert (Hv : 52358 / 10 ^ 9 <=
               sin ((289844 / 10000 - 289784 / 10000) * PI / 180 / 2)
               <= 52369 / 10 ^ 9).
  { pose proof (sin_between ((289844 / 10000 - 289784 / 10000) * PI / 180 / 2)
                  (31415 / 10000 / 60000) (31421 / 10000 / 60000)) as H.
    lra. }
  assert (Hc1 : 7544 / 10000 <= cos (410082 / 10000 * PI / 180) <= 7549 / 10000).
  { pose proof (cos_between (410082 / 10000 * PI / 180)
                  (410082 / 10000 * (31415 / 10000) / 180)
                  (410082 / 10000 * (31421 / 10000) / 180)) as H.
    lra. }
  assert (Hc2 : 7543 / 10000 <= cos (410122 / 10000 * PI / 180) <= 7549 / 10000).
  { pose proof (cos_between (410122 / 10000 * PI / 180)
                  (410122 / 10000 * (31415 / 10000) / 180)
                  (410122 / 10000 * (31421 / 10000) / 180)) as H.
    lra. }
  set (su := sin ((410122 / 10000 - 410082 / 10000) * PI / 180 / 2)) in *.
  set (sv := sin ((289844 / 10000 - 289784 / 10000) * PI / 180 / 2)) in *.
  set (c1 := cos (410082 / 10000 * PI / 180)) in *.
  set (c2 := cos (410122 / 10000 * PI / 180)) in *.
  assert (Huu : (34905 / 10 ^ 9) * (34905 / 10 ^ 9) <= su * su
                <= (34913 / 10 ^ 9) * (34913 / 10 ^ 9)) by nra.
  assert (Hvv : (52358 / 10 ^ 9) * (52358 / 10 ^ 9) <= sv * sv
                <= (52369 / 10 ^ 9) * (52369 / 10 ^ 9)) by nra.
  assert (Hcc : (7544 / 10000) * (7543 / 10000) <= c1 * c2
                <= (7549 / 10000) * (7549 / 10000)) by nra.
  replace (c1 * c2 * sv * sv) with ((c1 * c2) * (sv * sv)) by ring.
  set (p := c1 * c2) in *. set (q := sv * sv) in *. set (r := su * su) in *.
  assert (Hpq : (7544 / 10000) * (7543 / 10000)
                  * ((52358 / 10 ^ 9) * (52358 / 10 ^ 9)) <= p * q
                <= (7549 / 10000) * (7549 / 10000)
                   * ((52369 / 10 ^ 9) * (52369 / 10 ^ 9))) by nra.
  lra.
Qed.

(** For [0 <= a < 1] the angle [atan2 (sqrt a) (sqrt (1 - a))] is the
    arcsine of [sqrt a]. *)
Lemma atan2_sqrt_asin (a : R) :
  0 <= a < 1 → Math_atan2 (sqrt a) (sqrt (1 - a)) = asin (sqrt a).
Proof.
  intros [Ha0 Ha1]. unfold Math_atan2.
  assert (Hpos : 0 < sqrt (1 - a)) by (apply sqrt_lt_R0; lra).
  rewrite decide_True by exact Hpos.
  assert (Hs0 : 0 <= sqrt a) by apply sqrt_pos.
  assert (Hs1 : sqrt a < 1).
  { rewrite <- sqrt_1. apply sqrt_lt_1; lra. }
  rewrite asin_atan by lra. rewrite Rsqr_sqrt by exact Ha0. reflexivity.
Qed.

(** Bounds on the distance from bounds on [a]. *)
Lemma calculateDistance_between (lat1 lon1 lat2 lon2 lo hi : R) :
  0 <= lo <= 1 → 0 <= hi <= 1 →
  lo * lo <= haversine_a lat1 lon1 lat2 lon2 →
  haversine_a lat1 lon1 lat2 lon2 <= (hi - hi ^ 3 / 6) * (hi - hi ^ 3 / 6) →
  haversine_a lat1 lon1 lat2 lon2 < 1 →
  6371 * (2 * lo) <= calculateDistance lat1 lon1 lat2 lon2 <= 6371 * (2 * hi).
Proof.
  intros Hlo Hhi Hal Hah Ha1. rewrite calculateDistance_eq.
  set (a := haversine_a lat1 lon1 lat2 lon2) in *.
  assert (Ha0 : 0 <= a) by nra.
  rewrite atan2_sqrt_asin by lra.
  pose proof PI_bounds as [HP _].
  pose proof (asin_bound (sqrt a)) as Hb.
  assert (Hs0 : 0 <= sqrt a) by apply sqrt_pos.
  assert (Hs1 : sqrt a <= 1).
  { rewrite <- sqrt_1. apply sqrt_le_1; lra. }
  assert (Hsin : sin (asin (sqrt a)) = sqrt a) by (apply sin_asin; lra).
  assert (Hl : lo <= asin (sqrt a)).
  { apply sin_incr_0; try lra. rewrite Hsin.
    apply Rle_trans with lo; [apply sin_taylor; lra |].
    rewrite <- (sqrt_square lo) by lra. apply sqrt_le_1; nra. }
  assert (Hh : asin (sqrt a) <= hi).
  { apply sin_incr_0; try lra. rewrite Hsin.
    assert (Hq : 0 <= hi - hi ^ 3 / 6) by nra.
    apply Rle_trans with (hi - hi ^ 3 / 6); [| apply sin_taylor; lra].
    rewrite <- (sqrt_square (hi - hi ^ 3 / 6)) by exact Hq.
    apply sqrt_le_1; nra. }
  lra.
Qed.

(** The distance of the two points of the scenario, in kilometres. *)
Lemma scenario_distance :
  6715 / 10000 <=
  calculateDistance (410082 / 10000) (289784 / 10000)
    (410122 / 10000) (289844 / 10000)
  <= 6724 / 10000.
Proof.
  pose proof scenario_haversine as [Hl Hh].
  pose proof (calculateDistance_between (410082 / 10000) (289784 / 10000)
                (410122 / 10000) (289844 / 10000)
                (6715 / 10000 / 12742) (6724 / 10000 / 12742)) as H.
  lra.
Qed.

(** [Math.round] of a number whose nearest integer is known. *)
Lemma Math_round_eq (x : R) (z : Z) :
  IZR z - / 2 <= x < IZR z + / 2 → Math_round x = IZR z.
Proof.
  intros [Hl Hh]. unfold Math_round. f_equal. symmetry.
  apply Int_part_spec. lra.
Qed.

End GeoMath.

(** ** Route analysis: the scenario *)

(** C2. The code at the scenario: for the samples at (41.0082, 28.9784) and
    (41.0122, 28.9844), two minutes apart, with speed readings 5 and 7,
    [analyzeRoute] returns [totalDistance] 0.67, no stop, and [avgSpeed]
    25: the loop starts at the second sample, so the reading 5 of the first
    sample is never added and the mean is that of the reading 7 alone. *)
Theorem scenario_route_summary (t0 : Z) :
  analyzeRoute (scenario_route t0) =
  {| totalDistance := 67 / 100;
     avgSpeed := 25;
     stops := [];
     totalLocations := Some 2%nat;
     duration := Some (1 / 30)%R |}.
Proof.
  pose proof scenario_distance as [Hl Hh].
  unfold analyzeRoute, scenario_route. cbn [route_loop].
  unfold route_step, timeDiff, num_of, speed_present, route_sample.
  cbn [acc_totalDistance acc_totalSpeed acc_speedCount acc_stops
       row_latitude row_longitude row_speed row_timestamp
       default from_option List.last length].
  unfold Datatypes.id.
  rewrite (bool_decide_eq_false_2 (7 = 0)%R) by lra.
  cbn [negb Nat.ltb Nat.leb INR].
  replace (t0 + 120000 - t0)%Z with 120000%Z by lia.
  cbn [Z.ltb Z.compare Z.mul Pos.mul Pos.add Pos.compare Pos.compare_cont].
  f_equal.
  - rewrite (Math_round_eq _ 67); lra.
  - rewrite (Math_round_eq _ 25); lra.
  - f_equal. lra.
Qed.

(** ** Geofence evaluation *)

(** The [forEach] keeps, in order, the geofences within their radius. *)
Lemma triggeredGeofences_filter (la lo : R) (gs : list Geofence) :
  triggeredGeofences (Num la) (Num lo) gs =
  map (triggered_entry la lo) (List.filter (within_radius la lo) gs).
Proof.
  unfold triggeredGeofences. cbn [ToNumber].
  induction gs as [| g gs IH]; [reflexivity |].
  cbn [omap list_omap List.filter]. fold (omap (check_one la lo) gs).
  rewrite IH. unfold check_one at 1.
  fold (within_radius la lo g). destruct (within_radius la lo g); reflexivity.
Qed.

Lemma elem_of_select_geofences (g : Geofence) (tid : string) (σ : Server) :
  g ∈ select_geofences tid σ ↔
  g ∈ geofences σ ∧ gf_tracking_id g = tid ∧ gf_active g = true.
Proof.
  unfold select_geofences. rewrite !list_elem_of_In, filter_In.
  rewrite andb_true_iff, bool_decide_eq_true. tauto.
Qed.

(** C1, as the code has it.  For a point given by two numbers, the answer
    of the geofence check lists, in table order, an entry for exactly those
    active geofences of the tracking link whose centre is at a great-circle
    distance, in kilometres, of at most the stored radius; a distance equal
    to the radius triggers.  The entry reports that distance converted to
    metres and rounded to the nearest integer. *)
Theorem geofence_triggered_iff_within_radius_km (b : GeofenceBody)
    (σ : Server) (la lo : R) :
  gb_latitude b = Num la → gb_longitude b = Num lo →
  check_geofence None b σ =
    {| status := 200;
       body := TriggeredBody
                 (map (triggered_entry la lo)
                    (List.filter (within_radius la lo)
                       (select_geofences (gb_trackingId b) σ))) |}
  ∧ (∀ t, t ∈ map (triggered_entry la lo)
                (List.filter (within_radius la lo)
                   (select_geofences (gb_trackingId b) σ)) ↔
          ∃ g, g ∈ geofences σ
               ∧ gf_tracking_id g = gb_trackingId b ∧ gf_active g = true
               ∧ (geofence_distance la lo g <= num_of (gf_radius g))%R
               ∧ t = {| tg_id := gf_id g;
                        tg_action := gf_action g;
                        tg_distance :=
                          Math_round (geofence_distance la lo g * 1000) |})
  ∧ (∀ g, g ∈ select_geofences (gb_trackingId b) σ →
          geofence_distance la lo g = num_of (gf_radius g) →
          triggered_entry la lo g ∈
            map (triggered_entry la lo)
              (List.filter (within_radius la lo)
                 (select_geofences (gb_trackingId b) σ))).
Proof.
  intros Hla Hlo. split; [| split].
  - unfold check_geofence. rewrite Hla, Hlo, triggeredGeofences_filter.
    reflexivity.
  - intros t. rewrite list_elem_of_In, in_map_iff. split.
    + intros (g & <- & Hg). apply filter_In in Hg as [Hg Hw].
      apply list_elem_of_In, elem_of_select_geofences in Hg
        as (Hin & Htid & Hact).
      exists g. repeat split; try assumption.
      unfold within_radius in Hw. apply bool_decide_eq_true in Hw. exact Hw.
    + intros (g & Hin & Htid & Hact & Hd & ->). exists g.
      split; [reflexivity |]. apply filter_In. split.
      * apply list_elem_of_In, elem_of_select_geofences. auto.
      * unfold within_radius. apply bool_decide_eq_true. exact Hd.
  - intros g Hg Hd. apply list_elem_of_In, in_map, filter_In. split.
    + apply list_elem_of_In, Hg.
    + unfold within_radius. apply bool_decide_eq_true. rewrite Hd.
      apply Rle_refl.
Qed.

Lemma geofence_triggered_iff_within_radius_km_witness :
  gb_latitude sample_check = Num (410082 / 10000)
  ∧ gb_longitude sample_check = Num (289784 / 10000)
  ∧ check_geofence None sample_check geofence_server =
    {| status := 200;
       body := TriggeredBody
                 (map (triggered_entry (410082 / 10000) (289784 / 10000))
                    (List.filter
                       (within_radius (410082 / 10000) (289784 / 10000))
                       (select_geofences (gb_trackingId sample_check)
                          geofence_server))) |}.
Proof.
  split; [reflexivity |]. split; [reflexivity |].
  exact (proj1 (geofence_triggered_iff_within_radius_km sample_check
                  geofence_server (410082 / 10000) (289784 / 10000)
                  eq_refl eq_refl)).
Defined.

(** C1 fails as stated: the first point of the scenario is more than 671
    metres from the centre of a geofence of radius 100, so its distance in
    metres exceeds the radius, and yet the geofence is triggered, with a
    reported distance of 672. *)
Lemma distant_point_triggers_geofence :
  (num_of (gf_radius sample_geofence) <
   geofence_distance (410082 / 10000) (289784 / 10000) sample_geofence * 1000)%R
  ∧ check_geofence None sample_check geofence_server =
    {| status := 200;
       body := TriggeredBody
                 [{| tg_id := 1; tg_action := Some "alert";
                     tg_distance := 672 |}] |}.
Proof.
  pose proof scenario_distance as [Hl Hh].
  assert (Hd : geofence_distance (410082 / 10000) (289784 / 10000) sample_geofence
               = calculateDistance (410082 / 10000) (289784 / 10000)
                   (410122 / 10000) (289844 / 10000)) by reflexivity.
  split.
  - rewrite Hd. simpl. lra.
  - unfold check_geofence.
    change (select_geofences (gb_trackingId sample_check) geofence_server)
      with [sample_geofence].
    change (gb_latitude sample_check) with (Num (410082 / 10000)).
    change (gb_longitude sample_check) with (Num (289784 / 10000)).
    rewrite triggeredGeofences_filter. cbn [List.filter].
    unfold within_radius, triggered_entry. rewrite Hd.
    change (num_of (gf_radius sample_geofence)) with 100%R.
    rewrite bool_decide_eq_true_2 by lra.
    cbn [map gf_id gf_action sample_geofence].
    rewrite (Math_round_eq _ 672) by lra. reflexivity.
Qed.

(* ================================================================= *)
(** * Further properties of the code *)

(** ** Geo math *)

Section GeoMathLaws.
Local Open Scope R_scope.

Lemma haversine_a_same (lat lon : R) : haversine_a lat lon lat lon = 0.
Proof.
  unfold haversine_a.
  replace ((lat - lat) * PI / 180 / 2) with 0 by lra.
  replace ((lon - lon) * PI / 180 / 2) with 0 by lra.
  rewrite sin_0. ring.
Qed.

Lemma Math_atan2_0_1 : Math_atan2 0 1 = 0.
Proof.
  unfold Math_atan2. rewrite decide_True by lra.
  replace (0 / 1) with 0 by lra. apply atan_0.
Qed.

Lemma distance_at_zero : 6371 * (2 * Math_atan2 (sqrt 0) (sqrt (1 - 0))) = 0.
Proof.
  replace (1 - 0) with 1 by lra.
  rewrite sqrt_0, sqrt_1, Math_atan2_0_1. ring.
Qed.


Lemma haversine_a_sym (lat1 lon1 lat2 lon2 : R) :
  haversine_a lat1 lon1 lat2 lon2 = haversine_a lat2 lon2 lat1 lon1.
Proof.
  unfold haversine_a.
  replace ((lat1 - lat2) * PI / 180 / 2) with (- ((lat2 - lat1) * PI / 180 / 2))
    by lra.
  replace ((lon1 - lon2) * PI / 180 / 2) with (- ((lon2 - lon1) * PI / 180 / 2))
    by lra.
  rewrite !sin_neg. ring.
Qed.

(** The distance is symmetric in its two points. *)
Theorem calculateDistance_sym (lat1 lon1 lat2 lon2 : R) :
  calculateDistance lat1 lon1 lat2 lon2 = calculateDistance lat2 lon2 lat1 lon1.
Proof.
  rewrite !calculateDistance_eq, (haversine_a_sym lat1 lon1 lat2 lon2).
  reflexivity.
Qed.

End GeoMathLaws.

(** ** Route analysis: totals *)

Section RouteTotals.
Local Open Scope R_scope.

Lemma sum_R_app (l1 l2 : list R) : sum_R (l1 ++ l2) = sum_R l1 + sum_R l2.
Proof.
  induction l1 as [| x l1 IH]; simpl; [lra |].
  unfold sum_R in *. simpl. rewrite IH. lra.
Qed.

(** What the loop adds to its three numeric variables. *)
Lemma route_loop_totals (rest : list LocationRow) :
  ∀ (prev : LocationRow) (acc : RouteAcc),
    acc_totalDistance (route_loop prev rest acc) =
      acc_totalDistance acc
      + sum_R (map pair_distance (consecutive_pairs (prev :: rest)))
    ∧ acc_totalSpeed (route_loop prev rest acc) =
      acc_totalSpeed acc + sum_R (speed_readings (prev :: rest))
    ∧ acc_speedCount (route_loop prev rest acc) =
      (acc_speedCount acc + length (speed_readings (prev :: rest)))%nat.
Proof.
  induction rest as [| curr rest IH]; intros prev acc.
  - unfold sum_R, speed_readings. simpl. repeat split; try lra. lia.
  - simpl route_loop. destruct (IH curr (route_step prev curr acc)) as (Hd & Hs & Hc).
    rewrite Hd, Hs, Hc. clear Hd Hs Hc IH.
    change (consecutive_pairs (prev :: curr :: rest))
      with ((prev, curr) :: consecutive_pairs (curr :: rest)).
    unfold speed_readings. cbn [tail List.filter map].
    unfold route_step, pair_distance at 2. cbn [acc_totalDistance acc_totalSpeed acc_speedCount fst snd].
    destruct (speed_present (row_speed curr)); unfold sum_R; cbn [map fold_right length];
      repeat split; try lra; lia.
Qed.

Lemma Math_round_0 : Math_round (0 * 100) / 100 = 0.
Proof. rewrite (Math_round_eq _ 0); lra. Qed.

Lemma analyzeRoute_totalDistance (locations : list LocationRow) :
  totalDistance (analyzeRoute locations) =
  Math_round (sum_R (map pair_distance (consecutive_pairs locations)) * 100)
  / 100.
Proof.
  destruct locations as [| first [| second rest]];
    try (unfold sum_R; simpl; rewrite Math_round_0; reflexivity).
  unfold analyzeRoute. cbv beta iota zeta. cbn [totalDistance].
  rewrite (proj1 (route_loop_totals (second :: rest) first _)).
  cbn [acc_totalDistance]. rewrite Rplus_0_l. reflexivity.
Qed.

(** [totalDistance] is the sum of the distances of the consecutive pairs,
    rounded to two decimals; [avgSpeed] is the mean of the speed readings
    that are present and non-zero among all samples but the first, times
    3.6, rounded to an integer, and 0 when there is no such reading. *)
Theorem analyzeRoute_totals (locations : list LocationRow) :
  totalDistance (analyzeRoute locations) =
    Math_round (sum_R (map pair_distance (consecutive_pairs locations)) * 100)
    / 100
  ∧ avgSpeed (analyzeRoute locations) =
    match speed_readings locations with
    | [] => 0
    | readings =>
        Math_round (sum_R readings / INR (length readings) * (36 / 10))
    end.
Proof.
  split; [apply analyzeRoute_totalDistance |].
  destruct locations as [| first [| second rest]]; try reflexivity.
  unfold analyzeRoute. cbv beta iota zeta.
  destruct (route_loop_totals (second :: rest) first
              {| acc_totalDistance := 0; acc_totalSpeed := 0;
                 acc_speedCount := 0; acc_stops := [] |}) as (_ & Hs & Hc).
  cbn [avgSpeed]. rewrite Hs, Hc. cbn [acc_totalSpeed acc_speedCount].
  rewrite !Rplus_0_l.
  destruct (speed_readings (first :: second :: rest)) as [| x readings];
    reflexivity.
Qed.

Lemma last_nonempty_default (x d d' : LocationRow) (l : list LocationRow) :
  List.last (x :: l) d = List.last (x :: l) d'.
Proof.
  revert x. induction l as [| y l IH]; intros x; [reflexivity |].
  change (List.last (y :: l) d = List.last (y :: l) d'). apply IH.
Qed.

(** The first sample contributes its coordinates and its timestamp only:
    its speed reading, like every other column, is never used. *)
Theorem analyzeRoute_first_sample (first first' : LocationRow)
    (rest : list LocationRow) :
  row_latitude first = row_latitude first' →
  row_longitude first = row_longitude first' →
  row_timestamp first = row_timestamp first' →
  analyzeRoute (first :: rest) = analyzeRoute (first' :: rest).
Proof.
  intros Hla Hlo Hts. destruct rest as [| second rest]; [reflexivity |].
  unfold analyzeRoute. cbn [route_loop length].
  assert (Hstep : ∀ acc, route_step first second acc = route_step first' second acc).
  { intros acc. unfold route_step, timeDiff. rewrite Hla, Hlo, Hts. reflexivity. }
  assert (Hlast : List.last (first :: second :: rest) first
                  = List.last (first' :: second :: rest) first').
  { change (List.last (second :: rest) first = List.last (second :: rest) first').
    apply last_nonempty_default. }
  rewrite Hstep, Hts, Hlast. reflexivity.
Qed.

Lemma analyzeRoute_first_sample_witness :
  let first := route_sample (410082 / 10000) (289784 / 10000) (Some 5) 0 in
  let first' := route_sample (410082 / 10000) (289784 / 10000) (Some 90) 0 in
  let second := route_sample (410122 / 10000) (289844 / 10000) (Some 7) 120000 in
  row_latitude first = row_latitude first'
  ∧ row_longitude first = row_longitude first'
  ∧ row_timestamp first = row_timestamp first'
  ∧ analyzeRoute [first; second] = analyzeRoute [first'; second].
Proof.
  intros first first' second.
  split; [reflexivity |]. split; [reflexivity |]. split; [reflexivity |].
  exact (analyzeRoute_first_sample first first' [second] eq_refl eq_refl eq_refl).
Defined.

(** A history that never moves has total distance 0. *)
Theorem analyzeRoute_stationary (locations : list LocationRow)
    (lat lon : option R) :
  (∀ r, r ∈ locations → row_latitude r = lat ∧ row_longitude r = lon) →
  totalDistance (analyzeRoute locations) = 0.
Proof.
  intros Hall. rewrite analyzeRoute_totalDistance.
  assert (Hsum : sum_R (map pair_distance (consecutive_pairs locations)) = 0).
  { induction locations as [| a [| b rest] IH]; try reflexivity.
    change (consecutive_pairs (a :: b :: rest))
      with ((a, b) :: consecutive_pairs (b :: rest)).
    unfold sum_R in *. cbn [map fold_right]. rewrite IH.
    - unfold pair_distance. cbn [fst snd].
      destruct (Hall a) as [-> ->]; [left |].
      destruct (Hall b) as [-> ->]; [right; left |].
      rewrite calculateDistance_eq, haversine_a_same, distance_at_zero. lra.
    - intros r Hr. apply Hall. right. exact Hr. }
  rewrite Hsum. rewrite (Math_round_eq _ 0); lra.
Qed.

Lemma analyzeRoute_stationary_witness :
  let a := route_sample (410082 / 10000) (289784 / 10000) (Some 5) 0 in
  let b := route_sample (410082 / 10000) (289784 / 10000) None 60000 in
  (∀ r, r ∈ [a; b] →
        row_latitude r = Some (410082 / 10000)
        ∧ row_longitude r = Some (289784 / 10000))
  ∧ totalDistance (analyzeRoute [a; b]) = 0.
Proof.
  intros a b.
  assert (H : ∀ r, r ∈ [a; b] →
                row_latitude r = Some (410082 / 10000)
                ∧ row_longitude r = Some (289784 / 10000)).
  { intros r Hr. apply elem_of_cons in Hr as [-> | Hr]; [split; reflexivity |].
    apply list_elem_of_singleton in Hr as ->. split; reflexivity. }
  split; [exact H |].
  exact (analyzeRoute_stationary [a; b] _ _ H).
Defined.

End RouteTotals.

(** ** Route analysis: how many stops, and how long *)

Section RouteStops.
Local Open Scope R_scope.

Lemma consecutive_pairs_length (l : list LocationRow) :
  length (consecutive_pairs l) = (length l - 1)%nat.
Proof.
  induction l as [| a [| b rest] IH]; try reflexivity.
  change (consecutive_pairs (a :: b :: rest))
    with ((a, b) :: consecutive_pairs (b :: rest)).
  cbn [length] in *. rewrite IH. lia.
Qed.

(** Every recorded stop lasts more than five minutes, and a history of [n]
    samples has at most [n - 1] stops. *)
Theorem stops_exceed_five_minutes (locations : list LocationRow) :
  (∀ s, s ∈ stops (analyzeRoute locations) → 5 < stop_duration s)
  ∧ (length (stops (analyzeRoute locations)) <= length locations - 1)%nat.
Proof.
  rewrite analyzeRoute_stops. unfold spec_stops. split.
  - intros s Hs. apply list_elem_of_In, in_map_iff in Hs as (p & <- & Hp).
    apply filter_In in Hp as [_ Hgap]. unfold long_gap in Hgap.
    apply Z.ltb_lt in Hgap. unfold stop_after. cbn [stop_duration].
    apply IZR_lt in Hgap. lra.
  - rewrite length_map, <- consecutive_pairs_length. apply filter_length_le.
Qed.

End RouteStops.

(** ** Ingest: what is stored, and session bookkeeping *)

Lemma tracking_sessions_persist (env : Env) (row : LocationRow) (ev : Event)
    (b : LocationBody) (msg : string) (σ : Server) :
  insert_error env = None →
  tracking_sessions (persist_and_publish env row ev b msg σ).2 =
  match sql_text (sessionId b) with
  | Some id => alter (touch_session (clock env)) id (tracking_sessions σ)
  | None => tracking_sessions σ
  end.
Proof.
  intros He. unfold persist_and_publish, update_session. rewrite He.
  destruct (sql_text (sessionId b)); reflexivity.
Qed.

Lemma ingest_accepted (ep : Endpoint) (env : Env) (b : LocationBody)
    (σ : Server) :
  attempts_insert ep b = true → insert_error env = None →
  status (ingest ep env b σ).1 = 200%Z
  ∧ tracking_sessions (ingest ep env b σ).2 =
    match sql_text (sessionId b) with
    | Some id => alter (touch_session (clock env)) id (tracking_sessions σ)
    | None => tracking_sessions σ
    end.
Proof.
  intros Ha He. rewrite (ingest_attempted _ _ _ _ Ha).
  rewrite tracking_sessions_persist by exact He.
  split; [| reflexivity]. unfold persist_and_publish. rewrite He. reflexivity.
Qed.

(** An accepted sample is answered with success and counted on the session
    it names: the counter goes up by one and the last update is the current
    time, whether or not the session is still active.  No other session
    changes, and naming a session that does not exist changes none. *)
Theorem accepted_sample_is_counted (ep : Endpoint) (env : Env)
    (b : LocationBody) (σ : Server) :
  attempts_insert ep b = true → insert_error env = None →
  status (ingest ep env b σ).1 = 200%Z
  ∧ (∀ sid s, sessionId b = Str sid → tracking_sessions σ !! sid = Some s →
       ∃ s', tracking_sessions (ingest ep env b σ).2 !! sid = Some s'
             ∧ total_locations s' = (total_locations s + 1)%Z
             ∧ last_update s' = clock env
             ∧ is_active s' = is_active s
             ∧ session_tracking_id s' = session_tracking_id s)
  ∧ (∀ sid, sessionId b ≠ Str sid →
       tracking_sessions (ingest ep env b σ).2 !! sid
       = tracking_sessions σ !! sid)
  ∧ (∀ sid, sessionId b = Str sid → tracking_sessions σ !! sid = None →
       tracking_sessions (ingest ep env b σ).2 = tracking_sessions σ).
Proof.
  intros Ha He. destruct (ingest_accepted ep env b σ Ha He) as [Hst ->].
  split; [| split; [| split]].
  - exact Hst.
  - intros sid s Hsid Hs. rewrite Hsid. simpl.
    rewrite lookup_alter_eq, Hs. simpl. eexists. repeat split.
  - intros sid Hne. destruct (sessionId b) as [| | id]; simpl; try reflexivity.
    apply lookup_alter_ne. congruence.
  - intros sid Hsid Hs. rewrite Hsid. simpl. apply alter_id'. exact Hs.
Qed.

Lemma accepted_sample_is_counted_witness :
  let σ := set_tracking_sessions {[ "session-1" := running_session ]}
             empty_server in
  attempts_insert SaveLocation sample_body = true
  ∧ insert_error (env_ok 1000) = None
  ∧ ∃ s', tracking_sessions
            (ingest SaveLocation (env_ok 1000) sample_body σ).2 !! "session-1"
          = Some s'
          ∧ total_locations s' = 1%Z ∧ last_update s' = 1000%Z.
Proof.
  intros σ.
  assert (Ha : attempts_insert SaveLocation sample_body = true).
  { unfold attempts_insert. rewrite validate_sample_body. reflexivity. }
  assert (Hl : tracking_sessions σ !! "session-1" = Some running_session)
    by (simpl; apply lookup_singleton_eq).
  split; [exact Ha |]. split; [reflexivity |].
  destruct (proj1 (proj2 (accepted_sample_is_counted SaveLocation (env_ok 1000)
                            sample_body σ Ha eq_refl))
              "session-1" running_session eq_refl Hl)
    as (s' & Hs' & Hn & Hu & _).
  exists s'. repeat split; assumption.
Defined.

(** Stopping a session does not stop its count: a sample that names a
    stopped session is still accepted and counted, and the session stays
    stopped. *)
Theorem stopped_session_still_counts (ep : Endpoint) (env : Env)
    (b : LocationBody) (σ : Server) (sid : string) (s : TrackingSession) :
  tracking_sessions σ !! sid = Some s → sessionId b = Str sid →
  attempts_insert ep b = true → insert_error env = None →
  let σ1 := (stop_session None (Str sid) σ).2 in
  status (ingest ep env b σ1).1 = 200%Z
  ∧ ∃ s', tracking_sessions (ingest ep env b σ1).2 !! sid = Some s'
          ∧ is_active s' = false
          ∧ total_locations s' = (total_locations s + 1)%Z.
Proof.
  intros Hs Hsid Ha He σ1.
  assert (Hs1 : tracking_sessions σ1 !! sid = Some (deactivate s)).
  { unfold σ1. simpl. rewrite lookup_alter_eq, Hs. reflexivity. }
  destruct (ingest_accepted ep env b σ1 Ha He) as [Hst ->].
  split; [exact Hst |]. rewrite Hsid. cbn [sql_text].
  rewrite lookup_alter_eq, Hs1. eexists. repeat split.
Qed.

Lemma stopped_session_still_counts_witness :
  let σ := set_tracking_sessions {[ "session-1" := running_session ]}
             empty_server in
  tracking_sessions σ !! "session-1" = Some running_session
  ∧ sessionId sample_body = Str "session-1"
  ∧ attempts_insert SaveLocation sample_body = true
  ∧ insert_error (env_ok 1000) = None
  ∧ ∃ s', tracking_sessions
            (ingest SaveLocation (env_ok 1000) sample_body
               (stop_session None (Str "session-1") σ).2).2 !! "session-1"
          = Some s'
          ∧ is_active s' = false ∧ total_locations s' = 1%Z.
Proof.
  intros σ.
  assert (Ha : attempts_insert SaveLocation sample_body = true).
  { unfold attempts_insert. rewrite validate_sample_body. reflexivity. }
  assert (Hl : tracking_sessions σ !! "session-1" = Some running_session)
    by (simpl; apply lookup_singleton_eq).
  split; [exact Hl |]. split; [reflexivity |]. split; [exact Ha |].
  split; [reflexivity |].
  exact (proj2 (stopped_session_still_counts SaveLocation (env_ok 1000)
                  sample_body σ "session-1" running_session
                  Hl eq_refl Ha eq_refl)).
Defined.

(** ** Session and link life cycles *)

(** Starting a session under a fresh id adds an active session with no
    samples counted and changes no other session, whether or not the
    tracking id names a link; under an id already taken the answer is a 500
    and nothing changes.  A sample that then names the new session brings
    its counter to one. *)
Theorem start_session_round_trip (env : InsertEnv) (tid : string)
    (σ : Server) :
  ins_error env = None →
  (tracking_sessions σ !! uuid env = None →
     (start_session env tid σ).1 = json_ok [("sessionId", JString (uuid env))]
     ∧ (∃ s, tracking_sessions (start_session env tid σ).2 !! uuid env = Some s
             ∧ is_active s = true ∧ total_locations s = 0%Z
             ∧ session_tracking_id s = tid)
     ∧ (∀ sid, sid ≠ uuid env →
          tracking_sessions (start_session env tid σ).2 !! sid
          = tracking_sessions σ !! sid)
     ∧ (∀ ep e b, sessionId b = Str (uuid env) →
          attempts_insert ep b = true → insert_error e = None →
          ∃ s, tracking_sessions
                 (ingest ep e b (start_session env tid σ).2).2 !! uuid env
               = Some s ∧ total_locations s = 1%Z))
  ∧ (is_Some (tracking_sessions σ !! uuid env) →
     reply_status (start_session env tid σ).1 = 500%Z
     ∧ (start_session env tid σ).2 = σ).
Proof.
  intros He. split.
  - intros Hfresh.
    set (new := {| session_tracking_id := tid;
                   started_at := ins_clock env;
                   last_update := ins_clock env;
                   is_active := true;
                   total_locations := 0 |}).
    set (σ' := set_tracking_sessions (<[uuid env := new]> (tracking_sessions σ)) σ).
    assert (Heq : start_session env tid σ
                  = (json_ok [("sessionId", JString (uuid env))], σ')).
    { unfold start_session. rewrite He, Hfresh. reflexivity. }
    rewrite Heq. cbn [fst snd].
    assert (Hnew : tracking_sessions σ' !! uuid env = Some new)
      by (simpl; apply lookup_insert_eq).
    split; [reflexivity |]. split; [| split].
    + exists new. repeat split. exact Hnew.
    + intros sid Hne. simpl. apply lookup_insert_ne. congruence.
    + intros ep e b Hsid Ha Hie.
      destruct (ingest_accepted ep e b σ' Ha Hie) as [_ ->].
      rewrite Hsid. cbn [sql_text]. rewrite lookup_alter_eq, Hnew.
      eexists. split; reflexivity.
  - intros [s Hs]. unfold start_session. rewrite He, Hs. split; reflexivity.
Qed.

Lemma start_session_round_trip_witness :
  let env := {| uuid := "session-9"; ins_error := None; ins_clock := 500 |} in
  ins_error env = None
  ∧ tracking_sessions empty_server !! uuid env = None
  ∧ (start_session env "3f2b8c1e-link" empty_server).1
    = json_ok [("sessionId", JString "session-9")].
Proof.
  intros env. split; [reflexivity |]. split; [reflexivity |].
  exact (proj1 (proj1 (start_session_round_trip env "3f2b8c1e-link"
                         empty_server eq_refl) eq_refl)).
Defined.

Lemma session_evolves_refl (s : TrackingSession) : session_evolves s s.
Proof. unfold session_evolves. repeat split; [lia | tauto]. Qed.

Lemma session_evolves_trans (s1 s2 s3 : TrackingSession) :
  session_evolves s1 s2 → session_evolves s2 s3 → session_evolves s1 s3.
Proof.
  unfold session_evolves. intros (Ht & Hs & Hn & Ha) (Ht' & Hs' & Hn' & Ha').
  repeat split; try congruence; [lia | tauto].
Qed.

Lemma ingest_frame (ep : Endpoint) (env : Env) (b : LocationBody) (σ : Server) :
  tracking_links (ingest ep env b σ).2 = tracking_links σ
  ∧ geofences (ingest ep env b σ).2 = geofences σ
  ∧ sockets (ingest ep env b σ).2 = sockets σ
  ∧ rooms (ingest ep env b σ).2 = rooms σ
  ∧ activeConnections (ingest ep env b σ).2 = activeConnections σ.
Proof.
  destruct (attempts_insert ep b) eqn:Ha.
  - rewrite (ingest_attempted _ _ _ _ Ha).
    unfold persist_and_publish, update_session.
    destruct (insert_error env); [repeat split |].
    destruct (sql_text (sessionId b)); repeat split.
  - destruct (ingest_not_attempted ep env b σ Ha) as [msg ->]. repeat split.
Qed.

Lemma ingest_sessions (ep : Endpoint) (env : Env) (b : LocationBody)
    (σ : Server) (sid : string) :
  tracking_sessions (ingest ep env b σ).2 !! sid = tracking_sessions σ !! sid
  ∨ tracking_sessions (ingest ep env b σ).2 !! sid
    = touch_session (clock env) <$> tracking_sessions σ !! sid.
Proof.
  destruct (attempts_insert ep b) eqn:Ha.
  - rewrite (ingest_attempted _ _ _ _ Ha).
    unfold persist_and_publish, update_session.
    destruct (insert_error env); [left; reflexivity |].
    destruct (sql_text (sessionId b)) as [id |]; [| left; reflexivity].
    simpl. destruct (decide (id = sid)) as [-> | Hne].
    + right. apply lookup_alter_eq.
    + left. apply lookup_alter_ne, Hne.
  - destruct (ingest_not_attempted ep env b σ Ha) as [msg ->]. left; reflexivity.
Qed.

Lemma step_frame (σ : Server) (m : Msg) :
  tracking_links (step σ m) = tracking_links σ
  ∧ tracking_sessions (step σ m) = tracking_sessions σ
  ∧ location_data (step σ m) = location_data σ
  ∧ geofences (step σ m) = geofences σ.
Proof.
  destruct m; simpl;
    unfold connection, join_tracking, leave_tracking, disconnect;
    try case_decide; repeat split.
Qed.

(** What a request may do to a session that exists. *)
Lemma handle_session (σ : Server) (r : Request) (sid : string)
    (s : TrackingSession) :
  tracking_sessions σ !! sid = Some s →
  ∃ s', tracking_sessions (handle σ r) !! sid = Some s' ∧ session_evolves s s'.
Proof.
  intros Hs. destruct r as [ep env b | env tid | err id | cfg host env b
                           | env id | err b | m | env tid info]; simpl.
  - destruct (ingest_sessions ep env b σ sid) as [-> | ->]; rewrite Hs.
    + exists s. split; [reflexivity | apply session_evolves_refl].
    + eexists. split; [reflexivity |].
      unfold session_evolves. simpl. repeat split; [lia | tauto].
  - unfold start_session. destruct (ins_error env);
      [exists s; split; [exact Hs | apply session_evolves_refl] |].
    destruct (tracking_sessions σ !! uuid env) eqn:Hu;
      [exists s; split; [exact Hs | apply session_evolves_refl] |].
    simpl. rewrite lookup_insert_ne by congruence.
    exists s; split; [exact Hs | apply session_evolves_refl].
  - unfold stop_session. destruct err;
      [exists s; split; [exact Hs | apply session_evolves_refl] |].
    destruct (sql_text id) as [id' |]; simpl;
      [| exists s; split; [exact Hs | apply session_evolves_refl]].
    destruct (decide (id' = sid)) as [-> | Hne].
    + rewrite lookup_alter_eq, Hs. eexists. split; [reflexivity |].
      unfold session_evolves. simpl. repeat split. lia.
    + rewrite lookup_alter_ne by exact Hne.
      exists s; split; [exact Hs | apply session_evolves_refl].
  - unfold create_link. destruct (ins_error env);
      [| destruct (tracking_links σ !! uuid env)];
      exists s; (split; [exact Hs | apply session_evolves_refl]).
  - unfold delete_link.
    destruct (del_select_error env); [| destruct (tracking_links σ !! id);
      [destruct (del_update_error env); [| destruct (del_delete_error env)] |]];
      exists s; (split; [exact Hs | apply session_evolves_refl]).
  - unfold create_geofence. destruct err;
      exists s; (split; [exact Hs | apply session_evolves_refl]).
  - destruct (step_frame σ m) as (_ & -> & _).
    exists s; split; [exact Hs | apply session_evolves_refl].
  - unfold mobile_start_session. destruct (ins_error env);
      [exists s; split; [exact Hs | apply session_evolves_refl] |].
    destruct (tracking_sessions σ !! uuid env) eqn:Hu;
      [exists s; split; [exact Hs | apply session_evolves_refl] |].
    simpl. rewrite lookup_insert_ne by congruence.
    exists s; split; [exact Hs | apply session_evolves_refl].
Qed.

(** Over any sequence of requests a session, once created, is never
    removed, keeps its link and start time, never loses a counted sample,
    and once stopped is never active again. *)
Theorem sessions_only_advance (requests : list Request) (σ : Server)
    (sid : string) (s : TrackingSession) :
  tracking_sessions σ !! sid = Some s →
  ∃ s', tracking_sessions (serve σ requests) !! sid = Some s'
        ∧ session_tracking_id s' = session_tracking_id s
        ∧ started_at s' = started_at s
        ∧ (total_locations s <= total_locations s')%Z
        ∧ (is_active s = false → is_active s' = false).
Proof.
  revert σ s. induction requests as [| r requests IH]; intros σ s Hs.
  - exists s. split; [exact Hs |]. apply session_evolves_refl.
  - destruct (handle_session σ r sid s Hs) as (s1 & Hs1 & He1).
    destruct (IH (handle σ r) s1 Hs1) as (s' & Hs' & He').
    exists s'. split; [exact Hs' |].
    exact (session_evolves_trans s s1 s' He1 He').
Qed.

Lemma sessions_only_advance_witness :
  let σ := set_tracking_sessions {[ "session-1" := running_session ]}
             empty_server in
  tracking_sessions σ !! "session-1" = Some running_session
  ∧ ∃ s', tracking_sessions
            (serve σ [RStopSession None (Str "session-1");
                      RIngest SaveLocation (env_ok 1000) sample_body])
            !! "session-1" = Some s'
          ∧ (total_locations running_session <= total_locations s')%Z.
Proof.
  intros σ.
  assert (Hl : tracking_sessions σ !! "session-1" = Some running_session)
    by (simpl; apply lookup_singleton_eq).
  split; [exact Hl |].
  destruct (sessions_only_advance
              [RStopSession None (Str "session-1");
               RIngest SaveLocation (env_ok 1000) sample_body]
              σ "session-1" running_session Hl)
    as (s' & Hs' & _ & _ & Hn & _).
  exists s'. split; assumption.
Defined.

(** *** Links *)

(** Creating a link under a fresh id stores an active link, with the hints
    defaulting to 30 and 1440, answers with its id and its tracking URL,
    and from then on the tracking page of that id is served; no other link
    changes.  Under an id already taken the answer is a 500 and nothing
    changes. *)
Theorem create_link_round_trip (cfg : Config) (host : string)
    (env : InsertEnv) (b : CreateLinkBody) (σ : Server) :
  ins_error env = None →
  (tracking_links σ !! uuid env = None →
     reply_status (create_link cfg host env b σ).1 = 200%Z
     ∧ (∃ rest,
          reply_payload (create_link cfg host env b σ).1 =
          JsonObject
            (("trackingId", JString (uuid env))
             :: ("trackingUrl",
                 JString (baseUrl cfg host ++ "/track/" ++ uuid env))
             :: rest))
     ∧ tracking_links (create_link cfg host env b σ).2 !! uuid env =
       Some {| link_name := sql_text (cl_name b);
               link_active := true;
               tracking_interval := default 30%Z (cl_trackingInterval b);
               max_duration := default 1440%Z (cl_maxDuration b) |}
     ∧ (∀ id, id ≠ uuid env →
          tracking_links (create_link cfg host env b σ).2 !! id
          = tracking_links σ !! id)
     ∧ track_page None (uuid env) (create_link cfg host env b σ).2 =
       {| reply_status := 200; reply_payload := FileBody "public/track.html" |})
  ∧ (is_Some (tracking_links σ !! uuid env) →
     reply_status (create_link cfg host env b σ).1 = 500%Z
     ∧ (create_link cfg host env b σ).2 = σ).
Proof.
  intros He. unfold create_link. rewrite He. split.
  - intros Hfresh. rewrite Hfresh. cbn [fst snd].
    split; [reflexivity |]. split; [eexists; reflexivity |].
    split; [simpl; apply lookup_insert_eq |]. split.
    + intros id Hne. simpl. apply lookup_insert_ne. congruence.
    + unfold track_page. simpl. rewrite lookup_insert_eq. reflexivity.
  - intros [l Hl]. rewrite Hl. split; reflexivity.
Qed.

Lemma create_link_round_trip_witness :
  let cfg := {| production := false; PORT := "3000" |} in
  let env := {| uuid := "3f2b8c1e-link"; ins_error := None; ins_clock := 0 |} in
  let b := {| cl_name := Str "Courier"; cl_trackingInterval := None;
              cl_maxDuration := Some 60%Z |} in
  ins_error env = None
  ∧ tracking_links empty_server !! uuid env = None
  ∧ tracking_links (create_link cfg "example.org" env b empty_server).2
      !! "3f2b8c1e-link"
    = Some {| link_name := Some "Courier"; link_active := true;
              tracking_interval := 30; max_duration := 60 |}.
Proof.
  intros cfg env b. split; [reflexivity |]. split; [reflexivity |].
  exact (proj1 (proj2 (proj2 (proj1 (create_link_round_trip cfg "example.org"
                                       env b empty_server eq_refl) eq_refl)))).
Defined.

(** The state after the link [id] was found and deactivated. *)
Lemma delete_link_found (env : DeleteEnv) (id : string) (σ : Server)
    (l : TrackingLink) :
  del_select_error env = None → del_update_error env = None →
  tracking_links σ !! id = Some l →
  (delete_link env id σ).1 =
    json_ok [("success", JBool true);
             ("message",
              JString "Link başarıyla silindi ve tüm veriler temizlendi");
             ("deletedLocations", JInt 1)]
  ∧ tracking_links (delete_link env id σ).2
    = alter deactivate_link id (tracking_links σ)
  ∧ location_data (delete_link env id σ).2 =
    match del_delete_error env with
    | Some _ => location_data σ
    | None =>
        List.filter (λ r, negb (bool_decide (row_tracking_id r = id)))
          (location_data σ)
    end
  ∧ tracking_sessions (delete_link env id σ).2 = tracking_sessions σ.
Proof.
  intros Hsel Hupd Hl. unfold delete_link. rewrite Hsel, Hl, Hupd.
  destruct (del_delete_error env); repeat split.
Qed.

(** Deleting a link that exists deactivates it and leaves every other link
    as it is; when the [DELETE] succeeds no row of that link remains, and
    the rows of the other links are kept, in order.  The answer is a
    success whose [deletedLocations] is 1 whatever the number of rows
    deleted, also when the [DELETE] failed and the rows are still there.
    Deleting a link that does not exist is answered with 404 and changes
    nothing. *)
Theorem delete_link_effect (env : DeleteEnv) (id : string) (σ : Server) :
  del_select_error env = None →
  (tracking_links σ !! id = None →
     delete_link env id σ = (json_error 404 "Link bulunamadı", σ))
  ∧ (∀ l, tracking_links σ !! id = Some l → del_update_error env = None →
       (delete_link env id σ).1 =
         json_ok [("success", JBool true);
                  ("message",
                   JString "Link başarıyla silindi ve tüm veriler temizlendi");
                  ("deletedLocations", JInt 1)]
       ∧ tracking_links (delete_link env id σ).2 !! id
         = Some (deactivate_link l)
       ∧ (∀ id', id' ≠ id →
            tracking_links (delete_link env id σ).2 !! id'
            = tracking_links σ !! id')
       ∧ (del_delete_error env = None →
            (∀ r, r ∈ location_data (delete_link env id σ).2 →
                  row_tracking_id r ≠ id)
            ∧ (∀ id', id' ≠ id →
                 List.filter (λ r, bool_decide (row_tracking_id r = id'))
                   (location_data (delete_link env id σ).2)
                 = List.filter (λ r, bool_decide (row_tracking_id r = id'))
                     (location_data σ)))
       ∧ (is_Some (del_delete_error env) →
            location_data (delete_link env id σ).2 = location_data σ)).
Proof.
  intros Hsel. split.
  - intros Hnone. unfold delete_link. rewrite Hsel, Hnone. reflexivity.
  - intros l Hl Hupd.
    destruct (delete_link_found env id σ l Hsel Hupd Hl) as (Hr & Hlinks & Hrows & _).
    split; [exact Hr |]. rewrite Hlinks, Hrows. clear Hr Hlinks Hrows.
    split; [| split; [| split]].
    + rewrite lookup_alter_eq, Hl. reflexivity.
    + intros id' Hne. apply lookup_alter_ne. congruence.
    + intros ->. split.
      * intros r Hr'. apply list_elem_of_In, filter_In in Hr' as [_ Hr'].
        apply negb_true_iff, bool_decide_eq_false in Hr'. exact Hr'.
      * intros id' Hne. induction (location_data σ) as [| r rows IH];
          [reflexivity |].
        cbn [List.filter].
        destruct (bool_decide (row_tracking_id r = id)) eqn:Hrid;
          cbn [negb List.filter].
        -- apply bool_decide_eq_true in Hrid.
           rewrite (bool_decide_eq_false_2 (row_tracking_id r = id')) by congruence.
           exact IH.
        -- destruct (bool_decide (row_tracking_id r = id')); rewrite IH;
             reflexivity.
    + intros [e ->]. reflexivity.
Qed.

Lemma delete_link_effect_witness :
  let env := {| del_select_error := None; del_update_error := None;
                del_delete_error := None |} in
  let σ := set_tracking_links {[ "3f2b8c1e-link" := inactive_link ]}
             empty_server in
  del_select_error env = None
  ∧ tracking_links σ !! "3f2b8c1e-link" = Some inactive_link
  ∧ (delete_link env "3f2b8c1e-link" σ).1 =
    json_ok [("success", JBool true);
             ("message",
              JString "Link başarıyla silindi ve tüm veriler temizlendi");
             ("deletedLocations", JInt 1)].
Proof.
  intros env σ.
  assert (Hl : tracking_links σ !! "3f2b8c1e-link" = Some inactive_link)
    by (simpl; apply lookup_singleton_eq).
  split; [reflexivity |]. split; [exact Hl |].
  exact (proj1 (proj2 (delete_link_effect env "3f2b8c1e-link" σ eq_refl)
                  inactive_link Hl eq_refl)).
Defined.

(** Deleting a link closes its tracking page but not its ingestion: the
    page answers 404 from then on, yet a sample posted for the deleted link
    is accepted and stored again. *)
Theorem deleted_link_still_ingests (env : DeleteEnv) (id : string)
    (σ : Server) (l : TrackingLink) (ep : Endpoint) (e : Env)
    (b : LocationBody) :
  del_select_error env = None → del_update_error env = None →
  tracking_links σ !! id = Some l →
  trackingId b = id → attempts_insert ep b = true → insert_error e = None →
  let σ1 := (delete_link env id σ).2 in
  reply_status (track_page None id σ1) = 404%Z
  ∧ status (ingest ep e b σ1).1 = 200%Z
  ∧ location_data (ingest ep e b σ1).2 =
    (location_data σ1 ++ [ingest_row ep (clock e) b])%list
  ∧ row_tracking_id (ingest_row ep (clock e) b) = id.
Proof.
  intros Hsel Hupd Hl Htid Ha He σ1.
  destruct (delete_link_found env id σ l Hsel Hupd Hl) as (_ & Hlinks & _).
  split; [| split; [| split]].
  - unfold track_page, σ1. rewrite Hlinks, lookup_alter_eq, Hl. reflexivity.
  - rewrite (ingest_attempted _ _ _ _ Ha). unfold persist_and_publish.
    rewrite He. reflexivity.
  - rewrite (ingest_attempted _ _ _ _ Ha), location_data_persist, He.
    reflexivity.
  - rewrite <- Htid. destruct ep; reflexivity.
Qed.

Lemma deleted_link_still_ingests_witness :
  let env := {| del_select_error := None; del_update_error := None;
                del_delete_error := None |} in
  let σ := set_tracking_links {[ "3f2b8c1e-link" := inactive_link ]}
             empty_server in
  del_select_error env = None ∧ del_update_error env = None
  ∧ tracking_links σ !! "3f2b8c1e-link" = Some inactive_link
  ∧ trackingId sample_body = "3f2b8c1e-link"
  ∧ attempts_insert SaveLocation sample_body = true
  ∧ insert_error (env_ok 1000) = None
  ∧ status (ingest SaveLocation (env_ok 1000) sample_body
              (delete_link env "3f2b8c1e-link" σ).2).1 = 200%Z.
Proof.
  intros env σ.
  assert (Hl : tracking_links σ !! "3f2b8c1e-link" = Some inactive_link)
    by (simpl; apply lookup_singleton_eq).
  assert (Ha : attempts_insert SaveLocation sample_body = true).
  { unfold attempts_insert. rewrite validate_sample_body. reflexivity. }
  split; [reflexivity |]. split; [reflexivity |]. split; [exact Hl |].
  split; [reflexivity |]. split; [exact Ha |]. split; [reflexivity |].
  exact (proj1 (proj2 (deleted_link_still_ingests env "3f2b8c1e-link" σ
                         inactive_link SaveLocation (env_ok 1000) sample_body
                         eq_refl eq_refl Hl eq_refl Ha eq_refl))).
Defined.

Lemma link_evolves_trans (l1 l2 l3 : TrackingLink) :
  link_evolves l1 l2 → link_evolves l2 l3 → link_evolves l1 l3.
Proof.
  unfold link_evolves. intros [-> | ->] [-> | ->]; auto.
Qed.

Lemma handle_link (σ : Server) (r : Request) (id : string) (l : TrackingLink) :
  tracking_links σ !! id = Some l →
  ∃ l', tracking_links (handle σ r) !! id = Some l' ∧ link_evolves l l'.
Proof.
  intros Hl.
  assert (Hsame : ∀ σ', tracking_links σ' = tracking_links σ →
            ∃ l', tracking_links σ' !! id = Some l' ∧ link_evolves l l').
  { intros σ' ->. exists l. split; [exact Hl | left; reflexivity]. }
  destruct r as [ep env b | env tid | err sid | cfg host env b
                | env id' | err b | m | env tid info]; simpl.
  - apply Hsame. apply (ingest_frame ep env b σ).
  - apply Hsame. unfold start_session. destruct (ins_error env); [reflexivity |].
    destruct (tracking_sessions σ !! uuid env); reflexivity.
  - apply Hsame. unfold stop_session. destruct err; [reflexivity |].
    destruct (sql_text sid); reflexivity.
  - unfold create_link. destruct (ins_error env); [apply Hsame; reflexivity |].
    destruct (tracking_links σ !! uuid env) eqn:Hu; [apply Hsame; reflexivity |].
    simpl. rewrite lookup_insert_ne by congruence.
    exists l. split; [exact Hl | left; reflexivity].
  - unfold delete_link. destruct (del_select_error env); [apply Hsame; reflexivity |].
    destruct (tracking_links σ !! id') eqn:Hid; [| apply Hsame; reflexivity].
    destruct (del_update_error env); [apply Hsame; reflexivity |].
    assert (Hlk : ∃ l', alter deactivate_link id' (tracking_links σ) !! id = Some l'
                        ∧ link_evolves l l').
    { destruct (decide (id' = id)) as [-> | Hne].
      - rewrite lookup_alter_eq, Hl. eexists. split; [reflexivity |].
        right; reflexivity.
      - rewrite lookup_alter_ne by exact Hne.
        exists l. split; [exact Hl | left; reflexivity]. }
    destruct (del_delete_error env); exact Hlk.
  - apply Hsame. unfold create_geofence. destruct err; reflexivity.
  - apply Hsame. apply (step_frame σ m).
  - apply Hsame. unfold mobile_start_session.
    destruct (ins_error env); [reflexivity |].
    destruct (tracking_sessions σ !! uuid env); reflexivity.
Qed.

(** Over any sequence of requests a link, once created, is never removed
    nor renamed, and once deactivated is never active again. *)
Theorem links_never_reactivated (requests : list Request) (σ : Server)
    (id : string) (l : TrackingLink) :
  tracking_links σ !! id = Some l →
  ∃ l', tracking_links (serve σ requests) !! id = Some l'
        ∧ link_name l' = link_name l
        ∧ tracking_interval l' = tracking_interval l
        ∧ max_duration l' = max_duration l
        ∧ (link_active l = false → link_active l' = false).
Proof.
  intros Hl.
  assert (H : ∃ l', tracking_links (serve σ requests) !! id = Some l'
                    ∧ link_evolves l l').
  { revert σ l Hl. induction requests as [| r requests IH]; intros σ l Hl.
    - exists l. split; [exact Hl | left; reflexivity].
    - destruct (handle_link σ r id l Hl) as (l1 & Hl1 & He1).
      destruct (IH (handle σ r) l1 Hl1) as (l' & Hl' & He').
      exists l'. split; [exact Hl' |]. exact (link_evolves_trans l l1 l' He1 He'). }
  destruct H as (l' & Hl' & [-> | ->]).
  - exists l. split; [exact Hl' |]. repeat split; auto.
  - exists (deactivate_link l). split; [exact Hl' |]. repeat split; auto.
Qed.

Lemma links_never_reactivated_witness :
  let σ := set_tracking_links {[ "3f2b8c1e-link" := inactive_link ]}
             empty_server in
  tracking_links σ !! "3f2b8c1e-link" = Some inactive_link
  ∧ ∃ l', tracking_links
            (serve σ [RIngest SaveLocation (env_ok 1000) sample_body;
                      RCreateLink {| production := true; PORT := "3000" |}
                        "example.org"
                        {| uuid := "3f2b8c1e-link"; ins_error := None;
                           ins_clock := 0 |}
                        {| cl_name := Str "again"; cl_trackingInterval := None;
                           cl_maxDuration := None |}])
            !! "3f2b8c1e-link" = Some l'
          ∧ link_active l' = false.
Proof.
  intros σ.
  assert (Hl : tracking_links σ !! "3f2b8c1e-link" = Some inactive_link)
    by (simpl; apply lookup_singleton_eq).
  split; [exact Hl |].
  destruct (links_never_reactivated
              [RIngest SaveLocation (env_ok 1000) sample_body;
               RCreateLink {| production := true; PORT := "3000" |}
                 "example.org"
                 {| uuid := "3f2b8c1e-link"; ins_error := None; ins_clock := 0 |}
                 {| cl_name := Str "again"; cl_trackingInterval := None;
                    cl_maxDuration := None |}]
              σ "3f2b8c1e-link" inactive_link Hl)
    as (l' & Hl' & _ & _ & _ & Hact).
  exists l'. split; [exact Hl' |]. apply Hact. reflexivity.
Defined.

(** ** Geofences: creation *)

Lemma gf_id_le_max (l : list Geofence) (g : Geofence) :
  g ∈ l → (gf_id g <= fold_right Z.max 0 (map gf_id l))%Z.
Proof.
  induction l as [| h l IH]; intros Hg; [by apply elem_of_nil in Hg |].
  cbn [map fold_right]. apply elem_of_cons in Hg as [-> | Hg]; [lia |].
  specialize (IH Hg). lia.
Qed.




(** What a request other than a socket event or a geofence creation leaves
    alone. *)
Lemma handle_frame (σ : Server) (r : Request) :
  (∀ m, r ≠ RSocket m) →
  sockets (handle σ r) = sockets σ
  ∧ rooms (handle σ r) = rooms σ
  ∧ activeConnections (handle σ r) = activeConnections σ.
Proof.
  intros Hr. destruct r as [ep env b | env tid | err sid | cfg host env b
                           | env id | err b | m | env tid info]; simpl.
  - destruct (ingest_frame ep env b σ) as (_ & _ & H1 & H2 & H3). auto.
  - unfold start_session. destruct (ins_error env); [auto |].
    destruct (tracking_sessions σ !! uuid env); auto.
  - unfold stop_session. destruct err; [auto |]. destruct (sql_text sid); auto.
  - unfold create_link. destruct (ins_error env); [auto |].
    destruct (tracking_links σ !! uuid env); auto.
  - unfold delete_link. destruct (del_select_error env); [auto |].
    destruct (tracking_links σ !! id); [| auto].
    destruct (del_update_error env); [auto |].
    destruct (del_delete_error env); auto.
  - unfold create_geofence. destruct err; auto.
  - destruct (Hr m eq_refl).
  - unfold mobile_start_session. destruct (ins_error env); [auto |].
    destruct (tracking_sessions σ !! uuid env); auto.
Qed.

Lemma handle_geofences (σ : Server) (r : Request) :
  geofences (handle σ r) = geofences σ
  ∨ ∃ g, geofences (handle σ r) = (geofences σ ++ [g])%list
         ∧ gf_id g = next_geofence_id σ ∧ gf_active g = true.
Proof.
  destruct r as [ep env b | env tid | err sid | cfg host env b
                | env id | err b | m | env tid info]; simpl.
  - left. apply (ingest_frame ep env b σ).
  - left. unfold start_session. destruct (ins_error env); [reflexivity |].
    destruct (tracking_sessions σ !! uuid env); reflexivity.
  - left. unfold stop_session. destruct err; [reflexivity |].
    destruct (sql_text sid); reflexivity.
  - left. unfold create_link. destruct (ins_error env); [reflexivity |].
    destruct (tracking_links σ !! uuid env); reflexivity.
  - left. unfold delete_link. destruct (del_select_error env); [reflexivity |].
    destruct (tracking_links σ !! id); [| reflexivity].
    destruct (del_update_error env); [reflexivity |].
    destruct (del_delete_error env); reflexivity.
  - unfold create_geofence. destruct err; [left; reflexivity |].
    right. eexists. repeat split.
  - left. apply (step_frame σ m).
  - left. unfold mobile_start_session. destruct (ins_error env); [reflexivity |].
    destruct (tracking_sessions σ !! uuid env); reflexivity.
Qed.

(** Whatever requests the server has served since its start, the geofences
    have pairwise distinct ids and all of them are active: no request
    deactivates or removes a geofence. *)
Theorem geofences_stay_active (requests : list Request) :
  NoDup (map gf_id (geofences (serve empty_server requests)))
  ∧ ∀ g, g ∈ geofences (serve empty_server requests) → gf_active g = true.
Proof.
  assert (Hinv : ∀ σ,
            (NoDup (map gf_id (geofences σ))
             ∧ ∀ g, g ∈ geofences σ → gf_active g = true) →
            NoDup (map gf_id (geofences (serve σ requests)))
            ∧ ∀ g, g ∈ geofences (serve σ requests) → gf_active g = true).
  { induction requests as [| r requests IH]; intros σ Hσ; [exact Hσ |].
    apply (IH (handle σ r)). destruct Hσ as [Hnd Hact].
    destruct (handle_geofences σ r) as [-> | (g & -> & Hid & Hg)];
      [split; assumption |].
    split.
    - rewrite map_app. apply NoDup_app. split; [exact Hnd |]. split.
      + intros x Hx Hx'. apply list_elem_of_singleton in Hx'. subst x.
        apply list_elem_of_fmap in Hx as (g' & Hg' & Hin).
        pose proof (gf_id_le_max _ g' Hin) as Hle.
        rewrite Hid in Hg'. unfold next_geofence_id in Hg'. lia.
      + apply NoDup_singleton.
    - intros g' Hg'. apply elem_of_app in Hg' as [Hg' | Hg'];
        [apply Hact, Hg' |].
      apply list_elem_of_singleton in Hg' as ->. exact Hg. }
  apply Hinv. split; [apply NoDup_nil_2 | intros g Hg; by apply elem_of_nil in Hg].
Qed.

(** ** Fan-out: leaving, joining twice, and what the registry tracks *)

(** After a live connection leaves a link, nothing published to that link
    reaches it until it joins again, while the other subscribers of the
    link stay subscribed. *)
Theorem leave_stops_delivery (σ : Server) (mid : list Msg) (s tid : string)
    (ev : Event) :
  s ∈ sockets σ →
  (∀ m, m ∈ mid → m ≠ MJoinTracking s tid) →
  (∀ e, (s, e) ∉
        delivered_by (run (step σ (MLeaveTracking s tid)) mid) (MPublish tid ev))
  ∧ (∀ s', s' ≠ s → s' ∈ room_members σ tid →
       (s', ev) ∈ delivered_by (step σ (MLeaveTracking s tid)) (MPublish tid ev)).
Proof.
  intros Hs Hmid. split.
  - intros e Hin. apply elem_of_delivered_by_publish in Hin as [_ Hin].
    revert Hin. apply not_member_kept; [| | exact Hmid].
    + intros Hin. apply elem_of_room_step in Hin as [_ Hn].
      apply Hn. repeat split. exact Hs.
    + right. apply id_taken_step. left. exact Hs.
  - intros s' Hne Hin. apply elem_of_delivered_by_publish.
    split; [reflexivity |]. apply elem_of_room_step.
    split; [exact Hin |]. intros (_ & _ & ->). congruence.
Qed.

Lemma leave_stops_delivery_witness :
  let σ := run empty_server sample_trace in
  "sock-B" ∈ sockets σ
  ∧ (("sock-B", sample_event) ∉
     delivered_by (step σ (MLeaveTracking "sock-B" "3f2b8c1e-link"))
       (MPublish "3f2b8c1e-link" sample_event)).
Proof.
  intros σ.
  assert (Hs : "sock-B" ∈ sockets σ).
  { apply (bool_decide_unpack _). vm_compute. exact I. }
  split; [exact Hs |].
  apply (proj1 (leave_stops_delivery σ [] "sock-B" "3f2b8c1e-link"
                  sample_event Hs
                  (λ m Hm, False_ind _ (proj1 (elem_of_nil m) Hm)))).
Defined.

(** A publication hands the event to each subscriber exactly once, however
    many times it joined, and to nobody else. *)
Theorem publish_delivers_once (σ : Server) (tid : string) (ev : Event) :
  NoDup (delivered_by σ (MPublish tid ev))
  ∧ length (delivered_by σ (MPublish tid ev)) = size (room_members σ tid)
  ∧ (∀ s, s ∈ sockets σ →
       room_members (run σ [MJoinTracking s tid; MJoinTracking s tid]) tid
       = room_members (step σ (MJoinTracking s tid)) tid).
Proof.
  rewrite delivered_by_publish. split; [| split].
  - assert (Hinj : Inj (=) (=) (λ s : string, (s, ev)))
      by (intros x y Hxy; congruence).
    apply (NoDup_fmap_2 (λ s : string, (s, ev))), NoDup_elements.
  - rewrite length_map. reflexivity.
  - intros s Hs. apply set_eq. intros x.
    change (run σ [MJoinTracking s tid; MJoinTracking s tid])
      with (step (step σ (MJoinTracking s tid)) (MJoinTracking s tid)).
    rewrite !elem_of_room_step. rewrite elem_of_sockets_step. tauto.
Qed.

Lemma publish_delivers_once_witness :
  "sock-B" ∈ sockets (run empty_server sample_trace)
  ∧ room_members
      (run (run empty_server sample_trace)
         [MJoinTracking "sock-B" "3f2b8c1e-link";
          MJoinTracking "sock-B" "3f2b8c1e-link"]) "3f2b8c1e-link"
    = room_members
        (step (run empty_server sample_trace)
           (MJoinTracking "sock-B" "3f2b8c1e-link")) "3f2b8c1e-link".
Proof.
  assert (Hs : "sock-B" ∈ sockets (run empty_server sample_trace)).
  { apply (bool_decide_unpack _). vm_compute. exact I. }
  split; [exact Hs |].
  exact (proj2 (proj2 (publish_delivers_once (run empty_server sample_trace)
                         "3f2b8c1e-link" sample_event)) "sock-B" Hs).
Defined.

(** [activeConnections] remembers one link per socket, the rooms remember
    all of them: a live connection that joins a first and then a second
    link receives what is published to either, while the registry holds the
    second only; when it then leaves the second link the registry forgets
    the connection although it still receives what is published to the
    first. *)
Theorem registry_tracks_last_link_only (σ : Server) (s t1 t2 : string)
    (ev : Event) :
  s ∈ sockets σ → t1 ≠ t2 →
  let σ2 := run σ [MJoinTracking s t1; MJoinTracking s t2] in
  let σ3 := step σ2 (MLeaveTracking s t2) in
  activeConnections σ2 !! s = Some t2
  ∧ (s, ev) ∈ delivered_by σ2 (MPublish t1 ev)
  ∧ (s, ev) ∈ delivered_by σ2 (MPublish t2 ev)
  ∧ activeConnections σ3 !! s = None
  ∧ (s, ev) ∈ delivered_by σ3 (MPublish t1 ev)
  ∧ (∀ e, (s, e) ∉ delivered_by σ3 (MPublish t2 ev)).
Proof.
  intros Hs Hne σ2 σ3.
  assert (Hs1 : s ∈ sockets (step σ (MJoinTracking s t1)))
    by (apply elem_of_sockets_step; exact Hs).
  assert (Hs2 : s ∈ sockets σ2)
    by (apply (elem_of_sockets_step _ (MJoinTracking s t2)); exact Hs1).
  assert (Hr1 : s ∈ room_members σ2 t1).
  { apply (elem_of_room_step _ (MJoinTracking s t2)). left.
    apply elem_of_room_step. right. repeat split. exact Hs. }
  assert (Hr2 : s ∈ room_members σ2 t2).
  { apply (elem_of_room_step _ (MJoinTracking s t2)). right.
    repeat split. exact Hs1. }
  split; [| split; [| split; [| split; [| split]]]].
  - unfold σ2. simpl. unfold join_tracking at 1.
    rewrite decide_True by exact Hs1. simpl. apply lookup_insert_eq.
  - apply elem_of_delivered_by_publish. split; [reflexivity | exact Hr1].
  - apply elem_of_delivered_by_publish. split; [reflexivity | exact Hr2].
  - unfold σ3. simpl. unfold leave_tracking.
    rewrite decide_True by exact Hs2. simpl. apply lookup_delete_eq.
  - apply elem_of_delivered_by_publish. split; [reflexivity |].
    apply elem_of_room_step. split; [exact Hr1 |]. intros (_ & Heq & _).
    congruence.
  - intros e Hin. apply elem_of_delivered_by_publish in Hin as [_ Hin].
    apply elem_of_room_step in Hin as [_ Hn]. apply Hn. repeat split.
    exact Hs2.
Qed.

Lemma registry_tracks_last_link_only_witness :
  let σ := run empty_server sample_trace in
  "sock-A" ∈ sockets σ ∧ "link-1" ≠ "link-2"
  ∧ activeConnections
      (run σ [MJoinTracking "sock-A" "link-1"; MJoinTracking "sock-A" "link-2"])
      !! "sock-A" = Some "link-2".
Proof.
  intros σ.
  assert (Hs : "sock-A" ∈ sockets σ).
  { apply (bool_decide_unpack _). vm_compute. exact I. }
  assert (Hne : "link-1" ≠ "link-2") by discriminate.
  split; [exact Hs |]. split; [exact Hne |].
  exact (proj1 (registry_tracks_last_link_only σ "sock-A" "link-1" "link-2"
                  sample_event Hs Hne)).
Defined.

Lemma connections_tracked_step (σ : Server) (m : Msg) :
  connections_tracked σ → connections_tracked (step σ m).
Proof.
  intros Hinv x tid Hx. rewrite elem_of_sockets_step.
  destruct m as [s | s t | s t | s | t ev]; simpl in Hx.
  - unfold connection in Hx.
    assert (Hx' : activeConnections σ !! x = Some tid)
      by (case_decide; exact Hx).
    destruct (Hinv x tid Hx'); auto.
  - unfold join_tracking in Hx. case_decide as Hs; [| exact (Hinv x tid Hx)].
    simpl in Hx. destruct (decide (s = x)) as [-> | Hne]; [left; exact Hs |].
    rewrite lookup_insert_ne in Hx by exact Hne. exact (Hinv x tid Hx).
  - unfold leave_tracking in Hx. case_decide as Hs; [| exact (Hinv x tid Hx)].
    simpl in Hx. destruct (decide (s = x)) as [-> | Hne].
    + rewrite lookup_delete_eq in Hx. discriminate.
    + rewrite lookup_delete_ne in Hx by exact Hne. exact (Hinv x tid Hx).
  - unfold disconnect in Hx. case_decide as Hs.
    + simpl in Hx. destruct (decide (s = x)) as [-> | Hne].
      * destruct (activeConnections σ !! x) as [t |] eqn:Hax;
          [| rewrite Hax in Hx; discriminate].
        case_bool_decide as Ht.
        -- rewrite Hax in Hx. right. congruence.
        -- rewrite lookup_delete_eq in Hx. discriminate.
      * assert (Hx' : activeConnections σ !! x = Some tid).
        { destruct (activeConnections σ !! s) as [t |]; [| exact Hx].
          case_bool_decide; [exact Hx |].
          rewrite lookup_delete_ne in Hx by exact Hne. exact Hx. }
        destruct (Hinv x tid Hx'); [left | right]; auto.
    + destruct (Hinv x tid Hx) as [Hl | Ht]; [| right; exact Ht].
      left. split; [exact Hl |]. intros ->. contradiction.
  - exact (Hinv x tid Hx).
Qed.

Lemma fanout_invariants_handle (σ : Server) (r : Request) :
  rooms_live σ ∧ connections_tracked σ →
  rooms_live (handle σ r) ∧ connections_tracked (handle σ r).
Proof.
  intros [Hl Hc].
  assert (Hcase : (∃ m, r = RSocket m) ∨ (∀ m, r ≠ RSocket m)).
  { destruct r; try (right; discriminate). left. eauto. }
  destruct Hcase as [[m ->] | Hr].
  - split; [apply rooms_live_step, Hl | apply connections_tracked_step, Hc].
  - destruct (handle_frame σ r Hr) as (Hs & Hrm & Hac).
    unfold rooms_live, connections_tracked, room_members.
    rewrite Hs, Hrm, Hac. split; assumption.
Qed.

(** Whatever requests and socket events the server has served since its
    start: only live connections are in rooms, so nothing is ever handed to
    a connection that has disconnected; and [activeConnections] keeps an
    entry only for a live connection, or for one that joined the empty
    tracking id, which the disconnect handler does not remove. *)
Theorem fanout_state_invariants (requests : list Request) :
  let σ := serve empty_server requests in
  (∀ tid s, s ∈ room_members σ tid → s ∈ sockets σ)
  ∧ (∀ tid ev p, p ∈ delivered_by σ (MPublish tid ev) → p.1 ∈ sockets σ)
  ∧ (∀ s tid, activeConnections σ !! s = Some tid → s ∈ sockets σ ∨ tid = "").
Proof.
  intros σ.
  assert (Hserve : ∀ rs σ0, rooms_live σ0 ∧ connections_tracked σ0 →
            rooms_live (serve σ0 rs) ∧ connections_tracked (serve σ0 rs)).
  { induction rs as [| r rs IH]; intros σ0 H0; [exact H0 |].
    apply (IH (handle σ0 r)), fanout_invariants_handle, H0. }
  assert (Hempty : connections_tracked empty_server).
  { intros s tid Hs. simpl in Hs. rewrite lookup_empty in Hs. discriminate. }
  destruct (Hserve requests empty_server (conj rooms_live_empty Hempty))
    as [Hl Hc].
  split; [exact Hl |]. split; [| exact Hc].
  intros tid ev [s e] Hp. apply elem_of_delivered_by_publish in Hp as [_ Hp].
  exact (Hl tid s Hp).
Qed.

(** ** Statistics *)

Section Statistics.
Local Open Scope R_scope.

Lemma size_list_to_set_le (l : list string) :
  (size (list_to_set l : gset string) <= length l)%nat.
Proof.
  induction l as [| x l IH].
  - rewrite list_to_set_nil, size_empty. reflexivity.
  - rewrite list_to_set_cons, size_union_alt, size_singleton. cbn [length].
    assert (Hsub : list_to_set l ∖ {[x]} ⊆ (list_to_set l : gset string))
      by set_solver.
    apply subseteq_size in Hsub. lia.
Qed.

Lemma length_omap_le {A B : Type} (f : A → option B) (l : list A) :
  (length (omap f l) <= length l)%nat.
Proof.
  induction l as [| x l IH]; [reflexivity |].
  change (omap f (x :: l))
    with (match f x with Some y => y :: omap f l | None => omap f l end).
  destruct (f x); cbn [length]; lia.
Qed.

Lemma fold_max_spec (l : list Z) (x0 : Z) :
  (x0 <= fold_right Z.max x0 l)%Z
  ∧ (∀ x, x ∈ l → (x <= fold_right Z.max x0 l)%Z)
  ∧ (fold_right Z.max x0 l = x0 ∨ fold_right Z.max x0 l ∈ l).
Proof.
  induction l as [| h l (IH0 & IHall & IHin)]; simpl.
  - split; [lia |]. split; [intros x Hx; by apply elem_of_nil in Hx | left; reflexivity].
  - split; [lia |]. split.
    + intros x Hx. apply elem_of_cons in Hx as [-> | Hx]; [lia |].
      specialize (IHall x Hx). lia.
    + destruct (Z.max_spec h (fold_right Z.max x0 l)) as [[_ ->] | [_ ->]].
      * destruct IHin as [-> | Hin]; [left; reflexivity | right; right; exact Hin].
      * right. left.
Qed.

(** The statistics of a link count at most one session per row; a link
    without rows has zero counts and [NULL] aggregates; and the last
    location, when there is one, is the timestamp of a row of the link that
    no row of the link exceeds. *)
Theorem stats_of_rows (tid : string) (σ : Server) :
  (st_total_sessions (stats_of tid σ) <= st_total_locations (stats_of tid σ))%nat
  ∧ (rows_of tid σ = [] →
     stats_of tid σ =
     {| st_total_locations := 0; st_total_sessions := 0;
        st_last_location := None; st_avg_accuracy := None |})
  ∧ (∀ t, st_last_location (stats_of tid σ) = Some t →
       (∃ r, r ∈ location_data σ ∧ row_tracking_id r = tid
             ∧ row_timestamp r = t)
       ∧ ∀ r, r ∈ location_data σ → row_tracking_id r = tid →
              (row_timestamp r <= t)%Z).
Proof.
  unfold stats_of. cbn [st_total_sessions st_total_locations st_last_location].
  split; [| split].
  - etransitivity; [apply size_list_to_set_le | apply length_omap_le].
  - intros ->. reflexivity.
  - intros t Ht.
    assert (Hrows : ∀ r, r ∈ rows_of tid σ ↔
                         r ∈ location_data σ ∧ row_tracking_id r = tid).
    { intros r. unfold rows_of. rewrite !list_elem_of_In, filter_In.
      rewrite bool_decide_eq_true. reflexivity. }
    destruct (rows_of tid σ) as [| r0 rows] eqn:Hr; [discriminate |].
    cbn [map sql_max] in Ht. injection Ht as <-.
    destruct (fold_max_spec (map row_timestamp rows) (row_timestamp r0))
      as (H0 & Hall & Hmax).
    split.
    + destruct Hmax as [Heq | Hmax].
      * exists r0. rewrite Heq. destruct (proj1 (Hrows r0)) as [? ?]; [left |].
        repeat split; assumption.
      * apply list_elem_of_fmap in Hmax as (r & Hts & Hmax).
        exists r. destruct (proj1 (Hrows r)) as [? ?]; [right; exact Hmax |].
        repeat split; auto.
    + intros r Hin Htid.
      assert (Hr' : r ∈ r0 :: rows) by (apply Hrows; split; assumption).
      apply elem_of_cons in Hr' as [-> | Hr']; [exact H0 |].
      apply Hall, list_elem_of_fmap. eauto.
Qed.

Lemma rows_of_app (tid : string) (σ : Server) (rows : list LocationRow)
    (row : LocationRow) :
  location_data σ = (rows ++ [row])%list →
  rows_of tid σ =
  (List.filter (λ r, bool_decide (row_tracking_id r = tid)) rows
   ++ (if bool_decide (row_tracking_id row = tid) then [row] else []))%list.
Proof.
  intros H. unfold rows_of. rewrite H, List.filter_app. reflexivity.
Qed.

(** An accepted sample adds one to the count of its link and changes the
    statistics of no other link. *)
Theorem stats_after_accepted_sample (ep : Endpoint) (env : Env)
    (b : LocationBody) (σ : Server) :
  attempts_insert ep b = true → insert_error env = None →
  st_total_locations (stats_of (trackingId b) (ingest ep env b σ).2)
    = S (st_total_locations (stats_of (trackingId b) σ))
  ∧ ∀ tid, tid ≠ trackingId b →
           stats_of tid (ingest ep env b σ).2 = stats_of tid σ.
Proof.
  intros Ha He.
  assert (Hdata : location_data (ingest ep env b σ).2 =
                  (location_data σ ++ [ingest_row ep (clock env) b])%list).
  { rewrite (ingest_attempted _ _ _ _ Ha), location_data_persist, He.
    reflexivity. }
  assert (Htid : row_tracking_id (ingest_row ep (clock env) b) = trackingId b)
    by (destruct ep; reflexivity).
  split.
  - unfold stats_of. cbn [st_total_locations].
    rewrite (rows_of_app _ _ _ _ Hdata), Htid.
    rewrite bool_decide_eq_true_2 by reflexivity.
    rewrite length_app. unfold rows_of. simpl. lia.
  - intros tid Hne. unfold stats_of.
    rewrite (rows_of_app _ _ _ _ Hdata), Htid.
    rewrite bool_decide_eq_false_2 by congruence.
    rewrite app_nil_r. reflexivity.
Qed.

Lemma stats_after_accepted_sample_witness :
  attempts_insert SaveLocation sample_body = true
  ∧ insert_error (env_ok 1000) = None
  ∧ st_total_locations
      (stats_of (trackingId sample_body)
         (ingest SaveLocation (env_ok 1000) sample_body empty_server).2)
    = S (st_total_locations (stats_of (trackingId sample_body) empty_server)).
Proof.
  assert (Ha : attempts_insert SaveLocation sample_body = true).
  { unfold attempts_insert. rewrite validate_sample_body. reflexivity. }
  split; [exact Ha |]. split; [reflexivity |].
  exact (proj1 (stats_after_accepted_sample SaveLocation (env_ok 1000)
                  sample_body empty_server Ha eq_refl)).
Defined.

(** Once a link was deleted and its rows with it, its statistics are those
    of a link without rows, and the statistics of every other link are what
    they were. *)
Theorem stats_after_delete (env : DeleteEnv) (id : string) (σ : Server)
    (l : TrackingLink) :
  del_select_error env = None → del_update_error env = None →
  del_delete_error env = None → tracking_links σ !! id = Some l →
  stats_of id (delete_link env id σ).2 =
    {| st_total_locations := 0; st_total_sessions := 0;
       st_last_location := None; st_avg_accuracy := None |}
  ∧ ∀ id', id' ≠ id →
           stats_of id' (delete_link env id σ).2 = stats_of id' σ.
Proof.
  intros Hsel Hupd Hdel Hl.
  destruct (delete_link_found env id σ l Hsel Hupd Hl) as (_ & _ & Hrows & _).
  rewrite Hdel in Hrows.
  assert (Hfilter : ∀ id',
            rows_of id' (delete_link env id σ).2 =
            if bool_decide (id' = id) then [] else rows_of id' σ).
  { intros id'. unfold rows_of. rewrite Hrows. clear Hrows.
    induction (location_data σ) as [| r rows IH].
    - simpl. case_bool_decide; reflexivity.
    - cbn [List.filter].
      destruct (bool_decide (row_tracking_id r = id)) eqn:Hrid; cbn [negb].
      + rewrite IH. apply bool_decide_eq_true in Hrid.
        case_bool_decide as Hid; [reflexivity |].
        rewrite (bool_decide_eq_false_2 (row_tracking_id r = id')) by congruence.
        reflexivity.
      + cbn [List.filter]. rewrite IH. apply bool_decide_eq_false in Hrid.
        case_bool_decide as Hid.
        * subst id'. rewrite (bool_decide_eq_false_2 _ Hrid). reflexivity.
        * reflexivity. }
  split.
  - unfold stats_of. rewrite Hfilter, bool_decide_eq_true_2 by reflexivity.
    reflexivity.
  - intros id' Hne. unfold stats_of.
    rewrite Hfilter, bool_decide_eq_false_2 by exact Hne. reflexivity.
Qed.

Lemma stats_after_delete_witness :
  let env := {| del_select_error := None; del_update_error := None;
                del_delete_error := None |} in
  let σ := set_tracking_links {[ "3f2b8c1e-link" := inactive_link ]}
             (ingest SaveLocation (env_ok 1000) sample_body empty_server).2 in
  del_select_error env = None ∧ del_update_error env = None
  ∧ del_delete_error env = None
  ∧ tracking_links σ !! "3f2b8c1e-link" = Some inactive_link
  ∧ stats_of "3f2b8c1e-link" (delete_link env "3f2b8c1e-link" σ).2 =
    {| st_total_locations := 0; st_total_sessions := 0;
       st_last_location := None; st_avg_accuracy := None |}.
Proof.
  intros env σ.
  assert (Hl : tracking_links σ !! "3f2b8c1e-link" = Some inactive_link)
    by (simpl; apply lookup_singleton_eq).
  split; [reflexivity |]. split; [reflexivity |]. split; [reflexivity |].
  split; [exact Hl |].
  exact (proj1 (stats_after_delete env "3f2b8c1e-link" σ inactive_link
                  eq_refl eq_refl eq_refl Hl)).
Defined.

End Statistics.

(** ** Instances of the invariants *)

Lemma stops_exceed_five_minutes_witness :
  let a := route_sample (410082 / 10000) (289784 / 10000) (Some 5%R) 0 in
  let b := route_sample (410122 / 10000) (289844 / 10000) (Some 7%R) 600000 in
  stop_after (a, b) ∈ stops (analyzeRoute [a; b])
  ∧ (5 < stop_duration (stop_after (a, b)))%R.
Proof.
  intros a b.
  assert (Hin : stop_after (a, b) ∈ stops (analyzeRoute [a; b])).
  { rewrite analyzeRoute_stops. unfold spec_stops. simpl.
    apply list_elem_of_singleton. reflexivity. }
  split; [exact Hin |].
  exact (proj1 (stops_exceed_five_minutes [a; b]) _ Hin).
Defined.

Lemma geofences_stay_active_witness :
  let b := {| cg_trackingId := "3f2b8c1e-link";
              cg_latitude := Num (410082 / 10000);
              cg_longitude := Num (289784 / 10000);
              cg_radius := Num 100;
              cg_action := Str "alert" |} in
  let g := {| gf_id := 1; gf_tracking_id := "3f2b8c1e-link";
              gf_latitude := Some (410082 / 10000)%R;
              gf_longitude := Some (289784 / 10000)%R;
              gf_radius := Some 100%R; gf_action := Some "alert";
              gf_active := true |} in
  g ∈ geofences (serve empty_server [RCreateGeofence None b])
  ∧ gf_active g = true.
Proof.
  intros b g.
  assert (Hin : g ∈ geofences (serve empty_server [RCreateGeofence None b])).
  { simpl. apply list_elem_of_singleton. reflexivity. }
  split; [exact Hin |].
  exact (proj2 (geofences_stay_active [RCreateGeofence None b]) g Hin).
Defined.

Lemma fanout_state_invariants_witness :
  let σ := serve empty_server
             [RSocket (MConnection "sock-A");
              RSocket (MJoinTracking "sock-A" "3f2b8c1e-link")] in
  "sock-A" ∈ room_members σ "3f2b8c1e-link" ∧ "sock-A" ∈ sockets σ.
Proof.
  intros σ.
  assert (Hin : "sock-A" ∈ room_members σ "3f2b8c1e-link").
  { apply (elem_of_room_step _ (MJoinTracking "sock-A" "3f2b8c1e-link")).
    right. repeat split; simpl; set_solver. }
  split; [exact Hin |].
  exact (proj1 (fanout_state_invariants
                  [RSocket (MConnection "sock-A");
                   RSocket (MJoinTracking "sock-A" "3f2b8c1e-link")])
           "3f2b8c1e-link" "sock-A" Hin).
Defined.

Lemma stats_of_rows_witness :
  rows_of "3f2b8c1e-link" empty_server = []
  ∧ stats_of "3f2b8c1e-link" empty_server =
    {| st_total_locations := 0; st_total_sessions := 0;
       st_last_location := None; st_avg_accuracy := None |}.
Proof.
  split; [reflexivity |].
  exact (proj1 (proj2 (stats_of_rows "3f2b8c1e-link" empty_server)) eq_refl).
Defined.
